(** * NAV extractor scripts: a shallow embedding and its properties

    The development follows [scripts/main.py] (the batch pipeline that
    lists open-end funds, finds each fund's latest NAV announcement,
    downloads its image and tries OCR on the first one) and
    [scripts/extract_nav.py] (the single-image recognition CLI).

    Python values are modelled as the code has them:
    - a [str] is a list of Unicode code points ([N]);
    - a JSON document is the tree [json.loads] builds, a [dict] being the
      list of its items;
    - a parsed page is the tree [BeautifulSoup] builds;
    - exceptions are values of [exn], and code that can raise lives in a
      state-and-error monad [M] over the network, the standard output
      and the file system. *)

From Stdlib Require Import ZArith NArith Lia String Ascii.
From stdpp Require Import base option list gmap.

Set Warnings "-register-all".

Local Open Scope N_scope.

(** ** Python strings *)

(** A Python 3 [str]: a sequence of code points. *)
Abbreviation str := (list N).

Module PyStr.

(** Decoder for the UTF-8 bytes of a Rocq string literal, so that the
    literals of the scripts can be written as they appear in the source. *)
Fixpoint utf8_decode (bs : list N) : str :=
  match bs with
  | [] => []
  | b0 :: r0 =>
      if b0 <? 128 then b0 :: utf8_decode r0
      else if b0 <? 224 then
        match r0 with
        | b1 :: r1 => ((b0 mod 32) * 64 + b1 mod 64) :: utf8_decode r1
        | _ => []
        end
      else if b0 <? 240 then
        match r0 with
        | b1 :: b2 :: r2 =>
            ((b0 mod 16) * 4096 + (b1 mod 64) * 64 + b2 mod 64) :: utf8_decode r2
        | _ => []
        end
      else
        match r0 with
        | b1 :: b2 :: b3 :: r3 =>
            ((b0 mod 8) * 262144 + (b1 mod 64) * 4096 + (b2 mod 64) * 64 + b3 mod 64)
              :: utf8_decode r3
        | _ => []
        end
  end.

Definition u (s : string) : str :=
  utf8_decode (map N_of_ascii (list_ascii_of_string s)).

Definition NL : N := 10.
Definition DQUOTE : N := 34.

(** [a == b] on strings. *)
Definition str_eqb (a b : str) : bool := bool_decide (a = b).

(** [s.startswith(p)]. *)
Fixpoint startswith (p s : str) : bool :=
  match p, s with
  | [], _ => true
  | _ :: _, [] => false
  | a :: p', b :: s' => (a =? b) && startswith p' s'
  end.

(** The rest of [s] after the prefix [p], when [s] starts with [p]. *)
Fixpoint strip_prefix (p s : str) : option str :=
  match p, s with
  | [], _ => Some s
  | _ :: _, [] => None
  | a :: p', b :: s' => if a =? b then strip_prefix p' s' else None
  end.

(** [sub in s]: substring test, scanning the start positions from the left. *)
Fixpoint contains (sub s : str) : bool :=
  startswith sub s ||
  match s with
  | [] => false
  | _ :: s' => contains sub s'
  end.

(** [s.endswith(p)]. *)
Definition endswith (p s : str) : bool := startswith (rev p) (rev s).

(** [s.endswith((p1, ..., pn))]. *)
Definition endswith_any (ps : list str) (s : str) : bool :=
  existsb (fun p => endswith p s) ps.

(** [s.split(sep)] for a one-character separator: always at least one
    piece, empty pieces kept. *)
Fixpoint split (sep : N) (s : str) : list str :=
  match s with
  | [] => [[]]
  | c :: s' =>
      if c =? sep then [] :: split sep s'
      else match split sep s' with
           | [] => [[c]]
           | w :: ws => (c :: w) :: ws
           end
  end.

(** [sep.join(pieces)]. *)
Fixpoint join (sep : str) (pieces : list str) : str :=
  match pieces with
  | [] => []
  | [p] => p
  | p :: ps => p ++ sep ++ join sep ps
  end.

(** [Py_UNICODE_ISSPACE]: the characters [str.strip()] removes. *)
Definition isspace (c : N) : bool :=
  ((9 <=? c) && (c <=? 13)) || ((28 <=? c) && (c <=? 32))
  || (c =? 133) || (c =? 160) || (c =? 5760)
  || ((8192 <=? c) && (c <=? 8202))
  || (c =? 8232) || (c =? 8233) || (c =? 8239) || (c =? 8287) || (c =? 12288).

(** [s.lstrip()]. *)
Fixpoint lstrip (s : str) : str :=
  match s with
  | [] => []
  | c :: s' => if isspace c then lstrip s' else s
  end.

(** [s.rstrip()]. *)
Definition rstrip (s : str) : str := rev (lstrip (rev s)).

(** [s.strip()]. *)
Definition strip (s : str) : str := rstrip (lstrip s).

(** Longest prefix of [s] whose characters satisfy [p], and the rest. *)
Fixpoint span (p : N -> bool) (s : str) : str * str :=
  match s with
  | [] => ([], [])
  | c :: s' =>
      if p c then let '(g, r) := span p s' in (c :: g, r) else ([], s)
  end.

(** [s.rfind(c)] as an option: index of the last occurrence of [c]. *)
Fixpoint rfind (c : N) (s : str) : option nat :=
  match s with
  | [] => None
  | d :: s' =>
      match rfind c s' with
      | Some i => Some (S i)
      | None => if d =? c then Some O else None
      end
  end.

Definition is_ascii (c : N) : bool := c <? 128.

Definition ascii_lower (c : N) : N :=
  if (65 <=? c) && (c <=? 90) then c + 32 else c.

End PyStr.
Import PyStr.


(** ** The three regular expressions of [main.py] *)

Module Re.

(** All three patterns have the shape [pre([cls]+)post], where the first
    character of [post] is outside the class [cls].  At a given start the
    greedy group therefore takes the longest run of class characters and
    no shorter group can be followed by [post]: one attempt decides. *)
Definition match_here (pre : str) (cls : N -> bool) (post s : str) : option str :=
  match strip_prefix pre s with
  | None => None
  | Some r =>
      let '(g, r') := span cls r in
      match g with
      | [] => None
      | _ :: _ => if startswith post r' then Some g else None
      end
  end.

(** [re.search]: the leftmost start position with a match; the result is
    group 1. *)
Fixpoint search (pre : str) (cls : N -> bool) (post s : str) : option str :=
  match match_here pre cls post s with
  | Some g => Some g
  | None =>
      match s with
      | [] => None
      | _ :: s' => search pre cls post s'
      end
  end.

Definition not_char (c d : N) : bool := negb (d =? c).

Definition upper_or_digit (c : N) : bool :=
  ((65 <=? c) && (c <=? 90)) || ((48 <=? c) && (c <=? 57)).

(** [re.search] of the pattern [href=Q([^Q]+)Q], where [Q] stands for the
    double quote character. *)
Definition search_href : str -> option str :=
  search (u "href=" ++ [DQUOTE]) (not_char DQUOTE) [DQUOTE].

(** [re.search(r'>([^<]+)</a>', s)]. *)
Definition search_anchor_text : str -> option str :=
  search (u ">") (not_char 60) (u "</a>").

(** [re.search(r'>([A-Z0-9]+)</a>', s)]. *)
Definition search_symbol : str -> option str :=
  search (u ">") upper_or_digit (u "</a>").

End Re.

(** ** Values exchanged with the outside *)

(** What [json.loads] builds.  A [dict] is the list of its items (keys
    distinct, as the decoder leaves them); a float is kept as its [repr]. *)
Inductive JSON :=
| JNull
| JBool (b : bool)
| JInt (z : Z)
| JFloat (repr : str)
| JString (s : str)
| JArray (l : list JSON)
| JObject (items : list (str * JSON)).

(** What [BeautifulSoup(text, "html.parser")] builds: tags with their
    attribute dictionary and children, and text nodes. *)
Inductive node :=
| Tag (name : str) (attrs : list (str * str)) (children : list node)
| NavigableString (s : str).

(** The exceptions that occur in the scripts ([Exception] subclasses). *)
Inductive exn :=
| RequestException (msg : str)
| HTTPError (status : Z)
| JSONDecodeError
| AttributeError (msg : str)
| TypeError (msg : str)
| ModuleNotFoundError (name : str)
| FileNotFoundError (msg : str)
| TesseractNotFoundError
| TesseractError (msg : str)
| OtherException (msg : str).

Inductive Method := GET | POST.

(** An outgoing call of [requests]: [headers] are passed as the code
    builds them (a value can be [None]); [in_session] tells the calls
    made through the [requests.Session] of the enclosing function. *)
Record Request := {
  req_method : Method;
  req_url : str;
  req_params : list (str * Z);
  req_headers : list (str * option str);
  req_data : list (str * str);
  req_in_session : bool
}.

(** A [requests.Response] through the views the scripts use:
    [resp.status_code], the tree of [BeautifulSoup(resp.text)],
    [resp.json()] ([None] when it raises) and [resp.content]. *)
Record Response := {
  status_code : Z;
  soup : list node;
  json_doc : option JSON;
  content : list N
}.

(** A [pathlib.Path]: whether it is absolute, and its components. *)
Abbreviation Path := (bool * list (list N))%type.

(** One [(bbox, text, confidence)] entry of [easyocr]'s [readtext]; the
    box is never read by the scripts. *)
Record OcrBox (Confidence : Type) := {
  box_text : str;
  box_confidence : Confidence
}.
Arguments box_text {Confidence} _.
Arguments box_confidence {Confidence} _.

(** The world outside the scripts: the web server, the installed OCR
    runtimes and the libraries whose tables and numeric kernels are not
    part of the repository. *)
Class Env := {
  World : Type;
  (** [requests.get] / [session.get] / [session.post] *)
  http : World -> Request -> World * (exn + Response);
  (** [str.lower()] on a string with a non-ASCII character (Unicode
      Character Database) *)
  unicode_lower : str -> str;
  (** [Path(__file__).parent] *)
  script_dir : Path;
  (** [str(e)]: the message texts of the libraries' exceptions *)
  exn_str : exn -> str;
  (** floats are opaque; [round2 c] is [round(c, 2)] *)
  Confidence : Type;
  round2 : Confidence -> Confidence;
  (** whether [import easyocr] succeeds *)
  easyocr_installed : World -> bool;
  (** [easyocr.Reader(langs, gpu=False).readtext(path)] *)
  easyocr_readtext : World -> list str -> str -> World * (exn + list (OcrBox Confidence));
  (** whether the [tesseract] executable is installed and on the PATH *)
  tesseract_installed : World -> bool;
  (** a decoded image ([numpy] array) *)
  Image : Type;
  (** the [tesseract] executable run by [pytesseract] on an image *)
  tesseract_run : World -> str -> Image -> World * (exn + str);
  (** [cv2.imdecode(bytes, IMREAD_COLOR)]: [None] when it cannot decode *)
  cv2_imdecode : list N -> option Image;
  (** [os.path.exists] and [cv2.imread] on the local disk *)
  path_exists : World -> str -> bool;
  cv2_imread : World -> str -> option Image;
  cv2_imwrite : World -> str -> Image -> World;
  (** [image.shape] *)
  image_shape : Image -> list Z;
  (** the four OpenCV kernels of the preprocessing *)
  cv2_resize_cubic_2x : Image -> exn + Image;
  cv2_cvtColor_gray : Image -> exn + Image;
  cv2_GaussianBlur_5x5 : Image -> exn + Image;
  cv2_threshold_otsu : Image -> exn + Image
}.

(** ** Python's dynamic operations on decoded JSON *)

Module Py.

Fixpoint assoc {V : Type} (k : str) (items : list (str * V)) : option V :=
  match items with
  | [] => None
  | (k', v) :: rest => if str_eqb k' k then Some v else assoc k rest
  end.

(** [obj.get(key, default)]: only a [dict] has the method. *)
Definition get (obj : JSON) (key : str) (dflt : JSON) : exn + JSON :=
  match obj with
  | JObject items => inr (default dflt (assoc key items))
  | _ => inl (AttributeError (u "object has no attribute 'get'"))
  end.

(** [for item in value]: lists give their elements, dicts their keys,
    strings their characters; nothing else is iterable. *)
Definition iter (value : JSON) : exn + list JSON :=
  match value with
  | JArray l => inr l
  | JObject items => inr (map (fun kv => JString kv.1) items)
  | JString s => inr (map (fun c => JString [c]) s)
  | _ => inl (TypeError (u "object is not iterable"))
  end.

(** The [string] argument of [re.search] must be a [str]. *)
Definition as_str (value : JSON) : exn + str :=
  match value with
  | JString s => inr s
  | _ => inl (TypeError (u "expected string or bytes-like object"))
  end.

End Py.

(** ** BeautifulSoup queries *)

Module Soup.

(** Every node below [n], in document order. *)
Fixpoint descendants (n : node) : list node :=
  match n with
  | NavigableString _ => []
  | Tag _ _ children =>
      (fix below (l : list node) : list node :=
         match l with
         | [] => []
         | c :: rest => c :: descendants c ++ below rest
         end) children
  end.

(** Every node of a parsed page, in document order. *)
Definition all_nodes (page : list node) : list node :=
  flat_map (fun n => n :: descendants n) page.

(** [tag.get(key)]. *)
Definition attr (n : node) (key : str) : option str :=
  match n with
  | Tag _ attrs _ => Py.assoc key attrs
  | NavigableString _ => None
  end.

Definition is_tag_named (name : str) (n : node) : bool :=
  match n with
  | Tag name' _ _ => str_eqb name' name
  | NavigableString _ => false
  end.

Definition has_attr_value (key value : str) (n : node) : bool :=
  match n with
  | Tag _ _ _ =>
      match attr n key with
      | Some v => str_eqb v value
      | None => false
      end
  | NavigableString _ => false
  end.

(** [soup.find_all(name)]. *)
Definition find_all (name : str) (page : list node) : list node :=
  List.filter (is_tag_named name) (all_nodes page).

(** [soup.find(name, {key: value})]. *)
Definition find_named_with (name key value : str) (page : list node) : option node :=
  List.find (fun n => is_tag_named name n && has_attr_value key value n)
            (all_nodes page).

(** [soup.find(id=value)]. *)
Definition find_id (value : str) (page : list node) : option node :=
  List.find (has_attr_value (u "id") value) (all_nodes page).

(** The text nodes below [n], in document order. *)
Definition strings (n : node) : list str :=
  flat_map (fun d => match d with NavigableString s => [s] | Tag _ _ _ => [] end)
           (descendants n).

(** [tag.get_text(strip=True)]: every text node stripped, the empty ones
    dropped, the rest concatenated. *)
Definition get_text_strip (n : node) : str :=
  concat (List.filter (fun s => negb (str_eqb s [])) (map strip (strings n))).

End Soup.

(** ** Paths *)

Module PathLib.

(** [Path(s)]: components are separated by [/]; empty components and
    [.] are dropped. *)
Definition parse (s : str) : Path :=
  (startswith (u "/") s,
   List.filter (fun c => negb (str_eqb c []) && negb (str_eqb c (u ".")))
               (split 47 s)).

(** [p / s]: an absolute right-hand side replaces the left one. *)
Definition join (p : Path) (s : str) : Path :=
  let q := parse s in
  if q.1 then q else (p.1, p.2 ++ q.2).

(** [p.name]. *)
Definition name (p : Path) : str := List.last p.2 [].

(** [p.suffix]: from the last dot of the name, unless that dot is the
    first or the last character of the name. *)
Definition suffix (p : Path) : str :=
  let n := name p in
  match rfind 46 n with
  | Some i =>
      if (0 <? i)%nat && (i <? length n - 1)%nat then drop i n else []
  | None => []
  end.

(** [str(p)]. *)
Definition to_str (p : Path) : str :=
  match p with
  | (true, parts) => u "/" ++ PyStr.join (u "/") parts
  | (false, []) => u "."
  | (false, parts) => PyStr.join (u "/") parts
  end.

End PathLib.

(** ** Records built by [main.py] (Python dicts with fixed keys) *)

Module Fund.
Record t := {
  symbol : str;
  name : str;
  fund_size : JSON;
  daily_nav : JSON;
  daily_date : JSON;
  weekly_nav : JSON;
  weekly_date : JSON;
  monthly_nav : JSON;
  monthly_date : JSON
}.
End Fund.

Module Announcement.
Record t := {
  date : JSON;
  title : str;
  url : str
}.
End Announcement.

Module NavImage.
Record t := {
  symbol : str;
  name : str;
  announcement : Announcement.t
}.
End NavImage.

Module Downloaded.
Record t := {
  symbol : str;
  name : str;
  image_path : str;
  image_url : str;
  announcement_url : str
}.
End Downloaded.

Module NavData.
Record t (Confidence : Type) := {
  raw_text : str;
  line_count : nat;
  ocr_results : list (str * Confidence)
}.
Arguments raw_text {Confidence} _.
Arguments line_count {Confidence} _.
Arguments ocr_results {Confidence} _.
End NavData.

(** ** State and effects *)

(** What the scripts do to the outside, in order. *)
Inductive Event :=
| Sent (r : Request)
| Slept.

(** A piece of printed text: a literal, or the [str()] of a value placed
    in an f-string. *)
Inductive Piece {Confidence : Type} :=
| Lit (s : str)
| Val (v : JSON)
| Exc (e : exn)
| Num (n : nat)
| Percent (c : Confidence)
| Shape (dims : list Z).
Arguments Piece : clear implicits.

(** A file of the artifact store: the bytes of [write_bytes], or the
    document handed to [json.dump]. *)
Inductive File {Confidence : Type} :=
| FileBytes (b : list N)
| FileFunds (funds : list Fund.t)
| FileImages (downloaded : list Downloaded.t)
| FileNavData (nav_data : NavData.t Confidence).
Arguments File : clear implicits.

Record State `{Env} := {
  world : World;
  trace : list Event;
  stdout : list (Piece Confidence);
  stderr : list (Piece Confidence);
  fs : gmap Path (File Confidence)
}.

(** Failure inside pure code: [exn + A]. *)
#[global] Instance result_ret : MRet (sum exn) := fun A a => inr a.
#[global] Instance result_bind : MBind (sum exn) :=
  fun A B k m => match m with inl e => inl e | inr a => k a end.

(** Code with effects: it transforms the state and returns or raises. *)
Definition M `{Env} (A : Type) : Type := State -> State * (exn + A).

#[global] Instance M_ret `{Env} : MRet M := fun A a s => (s, inr a).
#[global] Instance M_bind `{Env} : MBind M :=
  fun A B k m s =>
    match m s with
    | (s', inr a) => k a s'
    | (s', inl e) => (s', inl e)
    end.

Section Effects.
Context `{Env}.

(** The state after each kind of effect. *)
Definition with_world (w : World) (s : State) : State :=
  {| world := w; trace := trace s; stdout := stdout s; stderr := stderr s;
     fs := fs s |}.

Definition with_event (ev : Event) (s : State) : State :=
  {| world := world s; trace := trace s ++ [ev]; stdout := stdout s;
     stderr := stderr s; fs := fs s |}.

Definition with_stdout (pieces : list (Piece Confidence)) (s : State) : State :=
  {| world := world s; trace := trace s; stdout := stdout s ++ pieces;
     stderr := stderr s; fs := fs s |}.

Definition with_stderr (pieces : list (Piece Confidence)) (s : State) : State :=
  {| world := world s; trace := trace s; stdout := stdout s;
     stderr := stderr s ++ pieces; fs := fs s |}.

Definition with_file (path : Path) (f : File Confidence) (s : State) : State :=
  {| world := world s; trace := trace s; stdout := stdout s;
     stderr := stderr s; fs := <[path := f]> (fs s) |}.

Definition raise {A : Type} (e : exn) : M A := fun s => (s, inl e).

Definition lift {A : Type} (r : exn + A) : M A := fun s => (s, r).

(** [try: body / except Exception as e: handler(e)]. *)
Definition try_except {A : Type} (body : M A) (handler : exn -> M A) : M A :=
  fun s =>
    match body s with
    | (s', inr a) => (s', inr a)
    | (s', inl e) => handler e s'
    end.

(** [print(f"...", end=...)]: the pieces then the end text. *)
Definition print_end (pieces : list (Piece Confidence)) (end_ : str) : M unit :=
  fun s => (with_stdout (pieces ++ [Lit end_]) s, inr tt).

Definition print (pieces : list (Piece Confidence)) : M unit :=
  print_end pieces [NL].

(** [print(..., file=sys.stderr)]. *)
Definition eprint (pieces : list (Piece Confidence)) : M unit :=
  fun s => (with_stderr (pieces ++ [Lit [NL]]) s, inr tt).

(** A call of [requests]: the server answers or the transport raises. *)
Definition send (r : Request) : M Response :=
  fun s =>
    let '(w, answer) := http (world s) r in
    (with_event (Sent r) (with_world w s), answer).

(** [time.sleep(0.5)]. *)
Definition sleep : M unit :=
  fun s => (with_event Slept s, inr tt).

(** [resp.raise_for_status()]. *)
Definition raise_for_status (resp : Response) : M unit :=
  if ((400 <=? status_code resp) && (status_code resp <? 600))%Z
  then raise (HTTPError (status_code resp))
  else mret tt.

(** [resp.json()]. *)
Definition resp_json (resp : Response) : M JSON :=
  match json_doc resp with
  | Some doc => mret doc
  | None => raise JSONDecodeError
  end.

(** [path.write_bytes(...)] and [json.dump(..., open(path, "w"))]: the
    store keeps the latest content per path.  Directories and failures
    of the operating system are not modelled, so [mkdir(exist_ok=True)]
    leaves the store as it is. *)
Definition write_file (path : Path) (f : File Confidence) : M unit :=
  fun s => (with_file path f s, inr tt).

Definition mkdir_exist_ok (path : Path) : M unit := mret tt.

End Effects.

(** ** [scripts/main.py] *)

Module Main.
Section Main.
Context `{Env}.

Definition lower (s : str) : str :=
  if forallb is_ascii s then map ascii_lower s else unicode_lower s.

Definition USER_AGENT : str :=
  u "Mozilla/5.0 (X11; Linux x86_64) AppleWebKit/537.36".

Definition IMAGES_DIR : Path := PathLib.join script_dir (u "images").
Definition DATA_DIR : Path := PathLib.join script_dir (u "data").

(** [requests.get(url, params=params, headers=headers)]. *)
Definition requests_get (url : str) (params : list (str * Z))
    (headers : list (str * option str)) : M Response :=
  send {| req_method := GET; req_url := url; req_params := params;
          req_headers := headers; req_data := []; req_in_session := false |}.

(** Lines 41-60: one row of the directory listing. *)
Definition fund_of_item (item : JSON) : exn + Fund.t :=
  symbol_html ← Py.get item (u "symbol") (JString []);
  symbol_text ← Py.as_str symbol_html;
  let symbol := default symbol_text (Re.search_symbol symbol_text) in
  name_html ← Py.get item (u "companyname") (JString []);
  name_text ← Py.as_str name_html;
  let name := default name_text (Re.search_anchor_text name_text) in
  fund_size ← Py.get item (u "fund_size") (JString []);
  daily_nav ← Py.get item (u "daily_nav_price") (JString []);
  daily_date ← Py.get item (u "daily_date") (JString []);
  weekly_nav ← Py.get item (u "weekly_nav_price") (JString []);
  weekly_date ← Py.get item (u "weekly_date") (JString []);
  monthly_nav ← Py.get item (u "monthly_nav_price") (JString []);
  monthly_date ← Py.get item (u "monthly_date") (JString []);
  mret {| Fund.symbol := symbol; Fund.name := name;
          Fund.fund_size := fund_size;
          Fund.daily_nav := daily_nav; Fund.daily_date := daily_date;
          Fund.weekly_nav := weekly_nav; Fund.weekly_date := weekly_date;
          Fund.monthly_nav := monthly_nav; Fund.monthly_date := monthly_date |}.

(** The loop of lines 41-60, [funds] being the list it appends to. *)
Fixpoint funds_loop (items : list JSON) (funds : list Fund.t) : exn + list Fund.t :=
  match items with
  | [] => mret funds
  | item :: rest =>
      fund ← fund_of_item item;
      funds_loop rest (funds ++ [fund])
  end.

Definition fetch_open_end_funds : M (list Fund.t) :=
  let url := u "https://www.sharesansar.com/mutual-fund-navs" in
  let params := [(u "draw", 1%Z); (u "start", 0%Z); (u "length", 50%Z);
                 (u "type", 2%Z)] in
  let headers := [(u "User-Agent", Some USER_AGENT);
                  (u "X-Requested-With", Some (u "XMLHttpRequest"))] in
  resp ← requests_get url params headers;
  raise_for_status resp;;
  data ← resp_json resp;
  rows ← lift (Py.get data (u "data") (JArray []));
  items ← lift (Py.iter rows);
  lift (funds_loop items []).

(** Lines 79-90: what is scraped from the profile page, with the
    fallback the code takes for each missing element. *)
Definition csrf_token_of (page : list node) : option str :=
  match Soup.find_named_with (u "meta") (u "name") (u "_token") page with
  | Some meta_token => Soup.attr meta_token (u "content")
  | None => Some []
  end.

Definition company_id_of (page : list node) : str :=
  match Soup.find_id (u "companyid") page with
  | Some companyid_elem => Soup.get_text_strip companyid_elem
  | None => []
  end.

Definition symbol_val_of (page : list node) (symbol : str) : str :=
  match Soup.find_id (u "symbol") page with
  | Some symbol_elem => Soup.get_text_strip symbol_elem
  | None => symbol
  end.

Definition sector_val_of (page : list node) : str :=
  match Soup.find_id (u "sector") page with
  | Some sector_elem => Soup.get_text_strip sector_elem
  | None => []
  end.

(** Lines 118-128: one row of the announcement feed; [None] when the
    row is skipped. *)
Definition announcement_of_item (item : JSON) : exn + option Announcement.t :=
  title_html ← Py.get item (u "title") (JString []);
  title_text ← Py.as_str title_html;
  let url_match := Re.search_href title_text in
  let title_match := Re.search_anchor_text title_text in
  match url_match with
  | Some url =>
      date ← Py.get item (u "published_date") (JString []);
      mret (Some {| Announcement.date := date;
                    Announcement.title := default [] title_match;
                    Announcement.url := url |})
  | None => mret None
  end.

Fixpoint announcements_loop (items : list JSON)
    (announcements : list Announcement.t) : exn + list Announcement.t :=
  match items with
  | [] => mret announcements
  | item :: rest =>
      found ← announcement_of_item item;
      match found with
      | Some ann => announcements_loop rest (announcements ++ [ann])
      | None => announcements_loop rest announcements
      end
  end.

Definition company_url_of (symbol : str) : str :=
  u "https://www.sharesansar.com/company/" ++ lower symbol.

(** The two requests of [fetch_fund_announcements]. *)
Definition profile_request (symbol : str) : Request :=
  {| req_method := GET; req_url := company_url_of symbol; req_params := [];
     req_headers := [(u "User-Agent", Some USER_AGENT)];
     req_data := []; req_in_session := true |}.

Definition announcements_request (symbol : str)
    (csrf_token : option str) (company_id symbol_val sector_val : str) : Request :=
  {| req_method := POST;
     req_url := u "https://www.sharesansar.com/company-announcements";
     req_params := [];
     req_headers :=
       [(u "User-Agent", Some USER_AGENT);
        (u "X-Requested-With", Some (u "XMLHttpRequest"));
        (u "X-CSRF-Token", csrf_token);
        (u "Content-Type",
         Some (u "application/x-www-form-urlencoded; charset=UTF-8"));
        (u "Referer", Some (company_url_of symbol))];
     req_data :=
       [(u "draw", u "1"); (u "start", u "0"); (u "length", u "10");
        (u "company", company_id); (u "symbol", symbol_val);
        (u "sector", sector_val)];
     req_in_session := true |}.

Definition fetch_fund_announcements (symbol fund_name : str)
    : M (list Announcement.t) :=
  resp ← send (profile_request symbol);
  let page := soup resp in
  let csrf_token := csrf_token_of page in
  let company_id := company_id_of page in
  let symbol_val := symbol_val_of page symbol in
  let sector_val := sector_val_of page in
  resp ← send (announcements_request symbol csrf_token company_id
                                     symbol_val sector_val);
  raise_for_status resp;;
  result ← resp_json resp;
  rows ← lift (Py.get result (u "data") (JArray []));
  items ← lift (Py.iter rows);
  lift (announcements_loop items []).

Definition is_nav_title (title : str) : bool :=
  contains (u "nav") title || contains (u "net assets value") title.

Fixpoint find_latest_nav_announcement (announcements : list Announcement.t)
    : option Announcement.t :=
  match announcements with
  | [] => None
  | ann :: rest =>
      let title := lower (Announcement.title ann) in
      if is_nav_title title then Some ann
      else find_latest_nav_announcement rest
  end.

Definition is_announcement_image (src : str) : bool :=
  contains (u "announcement") src
  && endswith_any [u ".jpg"; u ".jpeg"; u ".png"] src.

(** The loop of lines 154-159 over [soup.find_all("img")]. *)
Fixpoint first_announcement_image (imgs : list node) : option str :=
  match imgs with
  | [] => None
  | img :: rest =>
      let src := default [] (Soup.attr img (u "src")) in
      if is_announcement_image src then Some src
      else first_announcement_image rest
  end.

Definition extract_image_url (announcement_url : str) : M (option str) :=
  let headers := [(u "User-Agent", Some USER_AGENT)] in
  resp ← requests_get announcement_url [] headers;
  raise_for_status resp;;
  mret (first_announcement_image (Soup.find_all (u "img") (soup resp))).

(** [Path(url).suffix or ".jpg"]. *)
Definition extension_of (url : str) : str :=
  match PathLib.suffix (PathLib.parse url) with
  | [] => u ".jpg"
  | ext => ext
  end.

Definition image_path_of (url symbol : str) : Path :=
  PathLib.join IMAGES_DIR (symbol ++ extension_of url).

Definition download_image (url symbol : str) : M Path :=
  mkdir_exist_ok IMAGES_DIR;;
  let headers := [(u "User-Agent", Some USER_AGENT)] in
  resp ← requests_get url [] headers;
  raise_for_status resp;;
  let ext := extension_of url in
  let filepath := PathLib.join IMAGES_DIR (symbol ++ ext) in
  write_file filepath (FileBytes (content resp));;
  mret filepath.

Definition run_easyocr (image_path : Path) : M (list (OcrBox Confidence)) :=
  fun s =>
    if easyocr_installed (world s) then
      let '(w, results) :=
        easyocr_readtext (world s) [u "ne"; u "en"] (PathLib.to_str image_path) in
      (with_world w s, results)
    else (s, inl (ModuleNotFoundError (u "easyocr"))).

(** The list [nav_patterns] of the source is never used. *)
Definition extract_nav_data (ocr_results : list (OcrBox Confidence))
    : NavData.t Confidence :=
  let text_lines := map box_text ocr_results in
  let full_text := PyStr.join [NL] text_lines in
  {| NavData.raw_text := full_text;
     NavData.line_count := length text_lines;
     NavData.ocr_results :=
       map (fun r => (box_text r, round2 (box_confidence r)))
           (take 20 ocr_results) |}.

(** Lines 236-247: the body of the [try] for one fund. *)
Definition resolve_fund (fund : Fund.t) (nav_images : list NavImage.t)
    : M (list NavImage.t) :=
  let symbol := Fund.symbol fund in
  let fund_name := Fund.name fund in
  announcements ← fetch_fund_announcements symbol fund_name;
  let nav_ann := find_latest_nav_announcement announcements in
  match nav_ann with
  | Some nav_ann =>
      print [Lit (u "found: "); Val (Announcement.date nav_ann)];;
      mret (nav_images ++
              [{| NavImage.symbol := symbol;
                  NavImage.name := Fund.name fund;
                  NavImage.announcement := nav_ann |}])
  | None =>
      print [Lit (u "no NAV announcement found")];;
      mret nav_images
  end.

(** What is printed before the [try] of each loop: the symbol. *)
Definition announce (symbol : str) : M unit :=
  print_end [Lit (u "  "); Lit symbol; Lit (u "...")] (u " ").

(** The [except Exception as e] of both loops. *)
Definition log_error {A : Type} (unchanged : A) (e : exn) : M A :=
  print [Lit (u "error: "); Exc e];; mret unchanged.

(** Lines 230-251: the loop over [funds]; [nav_images] is the list it
    appends to. *)
Fixpoint nav_images_loop (funds : list Fund.t) (nav_images : list NavImage.t)
    : M (list NavImage.t) :=
  match funds with
  | [] => mret nav_images
  | fund :: rest =>
      announce (Fund.symbol fund);;
      nav_images ← try_except (resolve_fund fund nav_images)
                              (log_error nav_images);
      sleep;;
      nav_images_loop rest nav_images
  end.

(** Lines 263-275: the body of the [try] for one announcement.  An
    image URL is used when it is not [None] and not empty. *)
Definition acquire_item (item : NavImage.t) (downloaded : list Downloaded.t)
    : M (list Downloaded.t) :=
  let symbol := NavImage.symbol item in
  let ann_url := Announcement.url (NavImage.announcement item) in
  img_url ← extract_image_url ann_url;
  match img_url with
  | Some ((_ :: _) as img_url) =>
      filepath ← download_image img_url symbol;
      print [Lit (u "saved to "); Lit (PathLib.name filepath)];;
      mret (downloaded ++
              [{| Downloaded.symbol := symbol;
                  Downloaded.name := NavImage.name item;
                  Downloaded.image_path := PathLib.to_str filepath;
                  Downloaded.image_url := img_url;
                  Downloaded.announcement_url := ann_url |}])
  | _ =>
      print [Lit (u "no image found")];;
      mret downloaded
  end.

(** Lines 257-279: the loop over [nav_images]; [downloaded] is the list
    it appends to. *)
Fixpoint downloaded_loop (nav_images : list NavImage.t)
    (downloaded : list Downloaded.t) : M (list Downloaded.t) :=
  match nav_images with
  | [] => mret downloaded
  | item :: rest =>
      announce (NavImage.symbol item);;
      downloaded ← try_except (acquire_item item downloaded)
                              (log_error downloaded);
      sleep;;
      downloaded_loop rest downloaded
  end.

(** Lines 218-219. *)
Fixpoint print_funds (funds : list Fund.t) : M unit :=
  match funds with
  | [] => mret tt
  | f :: rest =>
      print [Lit (u "  - "); Lit (Fund.symbol f); Lit (u ": ");
             Lit (Fund.name f); Lit (u " (NAV: "); Val (Fund.daily_nav f);
             Lit (u ")")];;
      print_funds rest
  end.

(** Lines 299-300. *)
Fixpoint print_ocr_results (results : list (str * Confidence)) : M unit :=
  match results with
  | [] => mret tt
  | (text, confidence) :: rest =>
      print [Lit (u "  ["); Percent confidence; Lit (u "] ");
             Lit (take 60 text)];;
      print_ocr_results rest
  end.

Definition BANNER : str := repeat 61 60%nat.

Definition main : M unit :=
  print [Lit BANNER];;
  print [Lit (u "ShareSansar Open-End Mutual Fund NAV Extractor")];;
  print [Lit BANNER];;
  print [Lit [NL]; Lit (u "[1/4] Fetching open-end mutual funds...")];;
  funds ← fetch_open_end_funds;
  print [Lit (u "Found "); Num (length funds); Lit (u " open-end funds:")];;
  print_funds funds;;
  mkdir_exist_ok DATA_DIR;;
  write_file (PathLib.join DATA_DIR (u "funds.json")) (FileFunds funds);;
  print [Lit [NL]; Lit (u "[2/4] Fetching NAV announcements...")];;
  nav_images ← nav_images_loop funds [];
  print [Lit [NL]; Lit (u "[3/4] Downloading NAV images...")];;
  downloaded ← downloaded_loop nav_images [];
  write_file (PathLib.join DATA_DIR (u "images.json")) (FileImages downloaded);;
  print [Lit [NL]; Lit (u "Downloaded "); Num (length downloaded);
         Lit (u " images to "); Lit (PathLib.to_str IMAGES_DIR); Lit (u "/")];;
  match downloaded with
  | first :: _ =>
      print [Lit [NL]; Lit (u "[4/4] Testing EasyOCR on first image...")];;
      print [Lit (u "  Processing "); Lit (Downloaded.symbol first);
             Lit (u "...")];;
      try_except
        (ocr_results ← run_easyocr (PathLib.parse (Downloaded.image_path first));
         let nav_data := extract_nav_data ocr_results in
         print [Lit [NL]; Lit (u "  OCR Results (");
                Num (NavData.line_count nav_data);
                Lit (u " text blocks detected):")];;
         print [Lit (u "  "); Lit (repeat 45 50%nat)];;
         print_ocr_results (NavData.ocr_results nav_data);;
         write_file (PathLib.join DATA_DIR
                       (Downloaded.symbol first ++ u "_ocr.json"))
                    (FileNavData nav_data))
        (fun e =>
           print [Lit (u "  OCR error: "); Exc e];;
           print [Lit (u "  Make sure easyocr is installed: uv add easyocr")])
  | [] => mret tt
  end;;
  print [Lit [NL]; Lit BANNER];;
  print [Lit (u "Done! Check the data/ and images/ directories.")];;
  print [Lit BANNER].

End Main.
End Main.

(** ** [scripts/extract_nav.py] *)

Module ExtractNav.
Section ExtractNav.
Context `{Env}.

(** The parsed command line: [--image] and [--debug]. *)
Record Args := {
  image : str;
  debug : bool
}.

Definition get_image (source : str) : M (option Image) :=
  if startswith (u "http") source then
    response ← send {| req_method := GET; req_url := source;
                       req_params := []; req_headers := [];
                       req_data := []; req_in_session := false |};
    raise_for_status response;;
    mret (cv2_imdecode (content response))
  else
    fun s =>
      if path_exists (world s) source then (s, inr (cv2_imread (world s) source))
      else (s, inl (FileNotFoundError (u "Source not found: " ++ source))).

(** [image] is [None] when OpenCV could not decode the source; reading
    [image.shape] then raises. *)
Definition preprocess_image (image : option Image) : M Image :=
  match image with
  | None =>
      raise (AttributeError (u "'NoneType' object has no attribute 'shape'"))
  | Some image =>
      eprint [Lit (u "Original Image Shape: "); Shape (image_shape image)];;
      image ← lift (cv2_resize_cubic_2x image);
      gray ← lift (cv2_cvtColor_gray image);
      blur ← lift (cv2_GaussianBlur_5x5 gray);
      thresh ← lift (cv2_threshold_otsu blur);
      mret thresh
  end.

(** [pytesseract.image_to_string]: it raises [TesseractNotFoundError]
    when the executable is not installed or not on the PATH. *)
Definition extract_text (image : Image) : M str :=
  let custom_config := u "--oem 3 --psm 11 -l nep" in
  fun s =>
    if tesseract_installed (world s) then
      let '(w, text) := tesseract_run (world s) custom_config image in
      (with_world w s, text)
    else (s, inl TesseractNotFoundError).

Definition keywords : list str :=
  [u "एनआइबिएल"; u "सहभागिता"; u "मूल्य"; u "मंसिर"; u "२०८२"; u "NAV"].

Record ParsedData := {
  found_keywords : list str;
  raw_lines : list str
}.

Definition parse_data (text : str) : ParsedData :=
  let lines :=
    map strip
        (List.filter (fun line => negb (str_eqb (strip line) []))
                     (split NL text)) in
  let found_keywords := List.filter (fun kw => contains kw text) keywords in
  {| found_keywords := found_keywords; raw_lines := lines |}.

(** The document [json.dumps] prints for a result. *)
Definition data_doc (data : ParsedData) : JSON :=
  JObject [(u "found_keywords", JArray (map JString (found_keywords data)));
           (u "raw_lines", JArray (map JString (raw_lines data)))].

Definition tesseract_missing_doc : JSON :=
  JObject [(u "error", JString (u "Tesseract not found. Please install it."));
           (u "command", JString (u "sudo pacman -S tesseract tesseract-data-nep"))].

Definition error_doc (e : exn) : JSON :=
  JObject [(u "error", JString (exn_str e))].

(** [cv2.imwrite('debug_processed.png', processed_img)]. *)
Definition imwrite_debug (processed_img : Image) : M unit :=
  fun s =>
    (with_world (cv2_imwrite (world s) (u "debug_processed.png") processed_img) s,
     inr tt).

(** The body of the [try] of [main]. *)
Definition main_body (args : Args) : M unit :=
  img ← get_image (image args);
  processed_img ← preprocess_image img;
  (if debug args then imwrite_debug processed_img else mret tt);;
  text ← extract_text processed_img;
  let data := parse_data text in
  print [Val (data_doc data)].

(** [main], given the parsed arguments: the final state and the exit
    status of the process ([sys.exit(1)] in both handlers). *)
Definition main (args : Args) (s : State) : State * Z :=
  match main_body args s with
  | (s', inr tt) => (s', 0%Z)
  | (s', inl TesseractNotFoundError) =>
      ((eprint [Val tesseract_missing_doc] s').1, 1%Z)
  | (s', inl e) =>
      ((eprint [Val (error_doc e)] s').1, 1%Z)
  end.

End ExtractNav.
End ExtractNav.

(** ** Vocabulary of the statements *)

(** [sub] occurs somewhere in [s]. *)
Definition Substring (sub s : str) : Prop := ∃ a b, s = a ++ sub ++ b.

(** A title matches the disclosure keywords, whatever its case. *)
Definition MatchesDisclosure `{Env} (title : str) : Prop :=
  Substring (u "nav") (Main.lower title)
  ∨ Substring (u "net assets value") (Main.lower title).



(** A response that [raise_for_status] lets through. *)
Definition status_ok (resp : Response) : Prop :=
  ¬ (400 ≤ status_code resp < 600)%Z.

(** The request [download_image] and [extract_image_url] send for [url]. *)
Definition page_request (url : str) : Request :=
  {| req_method := GET; req_url := url; req_params := [];
     req_headers := [(u "User-Agent", Some Main.USER_AGENT)];
     req_data := []; req_in_session := false |}.

(** The request of [fetch_open_end_funds]. *)
Definition directory_request : Request :=
  {| req_method := GET;
     req_url := u "https://www.sharesansar.com/mutual-fund-navs";
     req_params := [(u "draw", 1%Z); (u "start", 0%Z); (u "length", 50%Z);
                    (u "type", 2%Z)];
     req_headers := [(u "User-Agent", Some Main.USER_AGENT);
                     (u "X-Requested-With", Some (u "XMLHttpRequest"))];
     req_data := []; req_in_session := false |}.

(** The title markup of a feed row: its [title] field, empty when the
    row has none. *)
Definition title_html_of (fields : list (str * JSON)) : JSON :=
  default (JString []) (Py.assoc (u "title") fields).

(** A feed row as the announcement query documents it: an object whose
    [title], when present, is a string. *)
Definition is_feed_row (item : JSON) : Prop :=
  ∃ fields title_html, item = JObject fields
                       ∧ title_html_of fields = JString title_html.

(** The spec's reading of the feed: a row yields an announcement exactly
    when a URL can be extracted from its title markup; the title is the
    anchor text, empty when there is none. *)
Definition spec_announcement_of_row (item : JSON) : option Announcement.t :=
  match item with
  | JObject fields =>
      match title_html_of fields with
      | JString title_html =>
          match Re.search_href title_html with
          | Some url =>
              Some {| Announcement.date :=
                        default (JString []) (Py.assoc (u "published_date") fields);
                      Announcement.title :=
                        default [] (Re.search_anchor_text title_html);
                      Announcement.url := url |}
          | None => None
          end
      | _ => None
      end
  | _ => None
  end.

(** The spec's reading of the extractor: trim every line, then drop the
    empty ones. *)
Definition spec_trimmed_lines (text : str) : list str :=
  List.filter (fun line => negb (str_eqb line [])) (map strip (split NL text)).

(** ** A concrete world for the examples *)

Module Scenario.

Definition ok_page (page : list node) : Response :=
  {| status_code := 200; soup := page; json_doc := None; content := [] |}.

Definition ok_json (doc : JSON) : Response :=
  {| status_code := 200; soup := []; json_doc := Some doc; content := [] |}.

Definition ok_bytes (bytes : list N) : Response :=
  {| status_code := 200; soup := []; json_doc := None; content := bytes |}.

Definition anchor (href text : str) : str :=
  u "<a href=" ++ [DQUOTE] ++ href ++ [DQUOTE] ++ u ">" ++ text ++ u "</a>".

(** A profile page with no [_token] meta element and no hidden fields. *)
Definition bare_profile : list node :=
  [Tag (u "html") []
     [Tag (u "head") [] [Tag (u "title") [] [NavigableString (u "Fund")]];
      Tag (u "body") [] [Tag (u "h1") [] [NavigableString (u "Fund profile")]]]].

(** A profile page with everything the announcement query needs. *)
Definition full_profile : list node :=
  [Tag (u "html") []
     [Tag (u "head") []
        [Tag (u "meta") [(u "name", u "_token"); (u "content", u "tok123")] []];
      Tag (u "body") []
        [Tag (u "div") [(u "id", u "companyid")] [NavigableString (u " 77 ")];
         Tag (u "div") [(u "id", u "symbol")] [NavigableString (u "CCC")];
         Tag (u "div") [(u "id", u "sector")] [NavigableString (u "Mutual Fund")]]]].

Definition row (title_html date : str) : JSON :=
  JObject [(u "published_date", JString date); (u "title", JString title_html)].

Definition nav_url : str := u "https://www.sharesansar.com/announcement/nav-poush".

(** A feed with a row without link, an unrelated row and a NAV row. *)
Definition feed_with_nav : JSON :=
  JObject
    [(u "draw", JInt 1);
     (u "data",
      JArray
        [row (u "<b>Book closure</b>") (u "2026-01-03");
         row (anchor (u "https://www.sharesansar.com/announcement/agm") (u "AGM notice"))
             (u "2026-01-02");
         row (anchor nav_url (u "Monthly NAV Report of Poush")) (u "2026-01-01")])].

(** A feed without any disclosure title. *)
Definition feed_without_nav : JSON :=
  JObject
    [(u "data",
      JArray
        [row (anchor (u "https://www.sharesansar.com/announcement/agm") (u "AGM notice"))
             (u "2026-01-02")])].

Definition directory_row (symbol name : str) : JSON :=
  JObject
    [(u "symbol", JString (anchor (u "/company/" ++ symbol) symbol));
     (u "companyname", JString (anchor (u "/company/" ++ symbol) name));
     (u "daily_nav_price", JString (u "10.13"))].

Definition directory : JSON :=
  JObject [(u "data", JArray [directory_row (u "AAA") (u "Alpha Fund");
                              directory_row (u "BBB") (u "Beta Fund");
                              directory_row (u "CCC") (u "Gamma Fund")])].

Definition image_url : str :=
  u "https://content.sharesansar.com/photos/announcement/nav-poush.png".

Definition detail_page : list node :=
  [Tag (u "html") []
     [Tag (u "body") []
        [Tag (u "img") [(u "src", u "/assets/logo.png")] [];
         Tag (u "p") [] [Tag (u "img") [(u "src", image_url)] []];
         Tag (u "img") [(u "src", u "/photos/announcement/other.jpg")] []]]].

Definition image_bytes : list N := [137; 80; 78; 71; 13; 10; 26; 10].

(** The server: fund AAA has a bare profile page and a NAV announcement,
    the transport fails for fund BBB, fund CCC has a full profile page
    and no NAV announcement.  [directory_doc] is what the directory
    endpoint answers. *)
Definition server (directory_doc : JSON) (r : Request) : exn + Response :=
  let url := req_url r in
  if str_eqb url (u "https://www.sharesansar.com/mutual-fund-navs")
  then inr (ok_json directory_doc)
  else if str_eqb url (u "https://www.sharesansar.com/company/aaa")
  then inr (ok_page bare_profile)
  else if str_eqb url (u "https://www.sharesansar.com/company/bbb")
  then inl (RequestException (u "connection reset"))
  else if str_eqb url (u "https://www.sharesansar.com/company/ccc")
  then inr (ok_page full_profile)
  else if str_eqb url (u "https://www.sharesansar.com/company-announcements")
  then if str_eqb (default [] (Py.assoc (u "symbol") (req_data r))) (u "AAA")
       then inr (ok_json feed_with_nav)
       else inr (ok_json feed_without_nav)
  else if str_eqb url nav_url then inr (ok_page detail_page)
  else if str_eqb url image_url then inr (ok_bytes image_bytes)
  else inr {| status_code := 404; soup := []; json_doc := None; content := [] |}.

(** No OCR runtime is installed in this world. *)
Definition env (directory_doc : JSON) : Env :=
  {| World := unit;
     http := fun w r => (w, server directory_doc r);
     unicode_lower := fun s => s;
     script_dir := (true, [u "srv"; u "scripts"]);
     exn_str := fun _ => u "error";
     Confidence := unit;
     round2 := fun c => c;
     easyocr_installed := fun _ => false;
     easyocr_readtext := fun w _ _ => (w, inr []);
     tesseract_installed := fun _ => false;
     Image := unit;
     tesseract_run := fun w _ _ => (w, inr []);
     cv2_imdecode := fun _ => Some tt;
     path_exists := fun _ _ => true;
     cv2_imread := fun _ _ => Some tt;
     cv2_imwrite := fun w _ _ => w;
     image_shape := fun _ => [600%Z; 800%Z; 3%Z];
     cv2_resize_cubic_2x := inr;
     cv2_cvtColor_gray := inr;
     cv2_GaussianBlur_5x5 := inr;
     cv2_threshold_otsu := inr |}.

Definition initial (E : Env) (w : @World E) : @State E :=
  {| world := w; trace := []; stdout := []; stderr := []; fs := ∅ |}.

Definition fund (symbol name : str) : Fund.t :=
  {| Fund.symbol := symbol; Fund.name := name;
     Fund.fund_size := JString []; Fund.daily_nav := JString (u "10.13");
     Fund.daily_date := JString []; Fund.weekly_nav := JString [];
     Fund.weekly_date := JString []; Fund.monthly_nav := JString [];
     Fund.monthly_date := JString [] |}.

Definition nav_announcement : Announcement.t :=
  {| Announcement.date := JString (u "2026-01-01");
     Announcement.title := u "Monthly NAV Report of Poush";
     Announcement.url := nav_url |}.

Definition agm_announcement : Announcement.t :=
  {| Announcement.date := JString (u "2026-01-02");
     Announcement.title := u "AGM notice";
     Announcement.url := u "https://www.sharesansar.com/announcement/agm" |}.

(** The world where the directory lists the three funds, and its
    initial state. *)
Definition E : Env := env directory.
Definition s0 : @State E := initial E tt.

(** The world where the directory answers an object without [data]. *)
Definition directory_without_data : JSON :=
  JObject [(u "draw", JInt 1); (u "recordsTotal", JInt 0)].
Definition E' : Env := env directory_without_data.
Definition s0' : @State E' := initial E' tt.

Definition fund_AAA : Fund.t := fund (u "AAA") (u "Alpha Fund").
Definition fund_BBB : Fund.t := fund (u "BBB") (u "Beta Fund").
Definition fund_CCC : Fund.t := fund (u "CCC") (u "Gamma Fund").

Definition nav_image_AAA : NavImage.t :=
  {| NavImage.symbol := u "AAA"; NavImage.name := u "Alpha Fund";
     NavImage.announcement := nav_announcement |}.

(** An entry whose announcement page the server does not know. *)
Definition nav_image_lost : NavImage.t :=
  {| NavImage.symbol := u "BBB"; NavImage.name := u "Beta Fund";
     NavImage.announcement :=
       {| Announcement.date := JString (u "2026-01-01");
          Announcement.title := u "NAV report";
          Announcement.url := u "https://www.sharesansar.com/announcement/lost" |} |}.


Definition image_path_AAA : Path :=
  (true, [u "srv"; u "scripts"; u "images"; u "AAA.png"]).

Definition downloaded_AAA : Downloaded.t :=
  {| Downloaded.symbol := u "AAA"; Downloaded.name := u "Alpha Fund";
     Downloaded.image_path := u "/srv/scripts/images/AAA.png";
     Downloaded.image_url := image_url;
     Downloaded.announcement_url := nav_url |}.

(** A directory with a row that is not an object. *)
Definition directory_with_bad_row : JSON :=
  JObject [(u "data", JArray [directory_row (u "AAA") (u "Alpha Fund");
                              JString (u "maintenance");
                              directory_row (u "CCC") (u "Gamma Fund")])].
Definition E_bad_row : Env := env directory_with_bad_row.

(** A world without network, without the image on disk and without OCR
    runtime. *)
Definition env_offline : Env :=
  {| World := unit;
     http := fun w r => (w, inl (RequestException (u "network unreachable")));
     unicode_lower := fun s => s;
     script_dir := (true, [u "srv"; u "scripts"]);
     exn_str := fun _ => u "error";
     Confidence := unit;
     round2 := fun c => c;
     easyocr_installed := fun _ => false;
     easyocr_readtext := fun w _ _ => (w, inr []);
     tesseract_installed := fun _ => false;
     Image := unit;
     tesseract_run := fun w _ _ => (w, inr []);
     cv2_imdecode := fun _ => None;
     path_exists := fun _ _ => false;
     cv2_imread := fun _ _ => None;
     cv2_imwrite := fun w _ _ => w;
     image_shape := fun _ => [];
     cv2_resize_cubic_2x := inr;
     cv2_cvtColor_gray := inr;
     cv2_GaussianBlur_5x5 := inr;
     cv2_threshold_otsu := inr |}.

End Scenario.

(** The pattern [pre([cls]+)post] matches somewhere in [s] with group
    [g]. *)
Definition PatternOccurs (pre : str) (cls : N → bool) (post s g : str) : Prop :=
  ∃ a b, s = a ++ pre ++ g ++ post ++ b
         ∧ g ≠ [] ∧ Forall (fun c => cls c = true) g.

(** The title markup of a row carries a link: the pattern
    [href=Q([^Q]+)Q] matches in it. *)
Definition HasLink (title_html : str) : Prop :=
  ∃ url, PatternOccurs (u "href=" ++ [DQUOTE]) (Re.not_char DQUOTE) [DQUOTE]
                       title_html url.

(** A keyword that can be looked for line by line: it is not empty, holds
    no newline, and neither starts nor ends with white space. *)
Definition solid (kw : str) : bool :=
  negb (existsb (N.eqb NL) kw)
  && match kw with c :: _ => negb (isspace c) | [] => false end
  && match rev kw with c :: _ => negb (isspace c) | [] => false end.

(** ** Vocabulary of the further properties *)

(** The field [key] of a row is absent or a string. *)
Definition string_or_missing (key : str) (fields : list (str * JSON)) : Prop :=
  ∃ text, default (JString []) (Py.assoc key fields) = JString text.

(** A directory row that [fetch_open_end_funds] can read: an object
    whose [symbol] and [companyname], when present, are strings. *)
Definition is_directory_row (item : JSON) : Prop :=
  ∃ fields, item = JObject fields
            ∧ string_or_missing (u "symbol") fields
            ∧ string_or_missing (u "companyname") fields.

(** An announcement as the feed loop builds them: a URL that is not
    empty and holds no double quote, and a title without [<]. *)
Definition well_formed_announcement (ann : Announcement.t) : Prop :=
  Announcement.url ann ≠ []
  ∧ (DQUOTE ∉ Announcement.url ann)
  ∧ (60 ∉ Announcement.title ann).

(** The extensions [extract_image_url] accepts. *)
Definition accepted_extensions : list str := [u ".jpg"; u ".jpeg"; u ".png"].

(** A dotted extension: a dot followed by at least one character, none
    of which is a dot or a slash. *)
Definition dotted_extension (ext : str) : Prop :=
  ∃ e, ext = 46 :: e ∧ e ≠ [] ∧ (46 ∉ e) ∧ (47 ∉ e).

(** The events of a paced run: for each block its requests, then a pause. *)
Definition paced (blocks : list (list Request)) : list Event :=
  concat (map (fun block => map Sent block ++ [Slept]) blocks).

(** The requests of one turn: [first], then at most one more. *)
Definition turn_requests (first : Request) (block : list Request) : Prop :=
  ∃ rest, block = first :: rest ∧ (length rest ≤ 1)%nat.

(** The entry recorded for a fund whose NAV announcement was found. *)
Definition resolved_from `{Env} (fund : Fund.t) (img : NavImage.t) : Prop :=
  NavImage.symbol img = Fund.symbol fund
  ∧ NavImage.name img = Fund.name fund
  ∧ MatchesDisclosure (Announcement.title (NavImage.announcement img))
  ∧ well_formed_announcement (NavImage.announcement img).



(** * Properties *)

(** ** Strings *)

Lemma startswith_prefix (p s : str) : startswith p s = true ↔ p `prefix_of` s.
Proof.
  revert s; induction p as [|a p IH]; intros [|b s]; simpl.
  - split; [intros _; by exists []|done].
  - split; [intros _; by eexists|done].
  - split; [done|]. intros [r Hr]. discriminate.
  - rewrite andb_true_iff, N.eqb_eq, IH. split.
    + intros [-> [r ->]]. by exists r.
    + intros [r Hr]. injection Hr as -> ->. split; [done|by exists r].
Qed.

Lemma strip_prefix_Some (p s r : str) : strip_prefix p s = Some r ↔ s = p ++ r.
Proof.
  revert s; induction p as [|a p IH]; intros [|b s]; simpl.
  - split; [by intros [= <-]|by intros <-].
  - split; [by intros [= <-]|by intros <-].
  - split; done.
  - destruct (N.eqb_spec a b) as [->|Hne].
    + rewrite IH. split; [by intros ->|by intros [= ->]].
    + split; [done|]. intros [= <- _]. done.
Qed.

Lemma endswith_suffix (p s : str) : endswith p s = true ↔ p `suffix_of` s.
Proof.
  unfold endswith. rewrite startswith_prefix. split.
  - intros [r Hr]. exists (rev r).
    rewrite <- (rev_involutive s), Hr, rev_app_distr, rev_involutive. done.
  - intros [r ->]. exists (rev r). by rewrite rev_app_distr.
Qed.

Lemma contains_Substring (sub s : str) : contains sub s = true ↔ Substring sub s.
Proof.
  induction s as [|c s IH].
  - simpl. rewrite orb_false_r, startswith_prefix. split.
    + intros [r Hr]. by exists [], r.
    + intros (a & b & Hab). destruct a; [by exists b|done].
  - cbn [contains]. rewrite orb_true_iff, startswith_prefix, IH. split.
    + intros [[r Hr]|(a & b & ->)].
      * by exists [], r.
      * by exists (c :: a), b.
    + intros (a & b & Hab). destruct a as [|c' a].
      * left. by exists b.
      * right. injection Hab as -> ->. by exists a, b.
Qed.

Lemma contains_false (sub s : str) : contains sub s = false ↔ ¬ Substring sub s.
Proof.
  rewrite <- contains_Substring. destruct (contains sub s); split; done.
Qed.

Lemma Substring_refl (s : str) : Substring s s.
Proof. exists [], []. by rewrite app_nil_r. Qed.

Lemma Substring_trans (a b c : str) : Substring a b → Substring b c → Substring a c.
Proof.
  intros (x & y & ->) (x' & y' & ->). exists (x' ++ x), (y ++ y').
  by rewrite <- ?app_assoc.
Qed.

Lemma Substring_rev (sub s : str) : Substring sub s → Substring (rev sub) (rev s).
Proof.
  intros (a & b & ->). exists (rev b), (rev a).
  by rewrite !rev_app_distr, <- app_assoc.
Qed.

Lemma Substring_app_l (sub a b : str) : Substring sub a → Substring sub (a ++ b).
Proof. intros (x & y & ->). exists x, (y ++ b). by rewrite <- ?app_assoc. Qed.

Lemma Substring_app_r (sub a b : str) : Substring sub b → Substring sub (a ++ b).
Proof. intros (x & y & ->). exists (a ++ x), y. by rewrite <- ?app_assoc. Qed.

(** A string without the separator that occurs in [a ++ [sep] ++ b]
    occurs on one side of the separator. *)
Lemma Substring_across (sep : N) (sub a b : str) :
  sep ∉ sub → Substring sub (a ++ sep :: b) → Substring sub a ∨ Substring sub b.
Proof.
  intros Hsep (x & y & Heq).
  apply app_eq_app in Heq as [l [[-> Hl]|[-> Hl]]].
  - apply app_eq_app in Hl as [l2 [[-> Hl2]|[-> Hl2]]].
    + destruct l2 as [|c l2].
      * left. exists x, []. by rewrite ?app_nil_r.
      * injection Hl2 as <- _. exfalso. apply Hsep.
        apply elem_of_app. right. left.
    + left. exists x, l2. by rewrite <- ?app_assoc.
  - destruct l as [|c l].
    + destruct sub as [|c sub].
      * left. exists a, []. by rewrite ?app_nil_r.
      * injection Hl as <- _. exfalso. apply Hsep. left.
    + injection Hl as _ ->. right. by exists l, y.
Qed.

Lemma lstrip_suffix (s : str) : lstrip s `suffix_of` s.
Proof.
  induction s as [|c s IH]; simpl; [done|].
  destruct (isspace c); [|done]. by apply suffix_cons_r.
Qed.

Lemma strip_Substring (s : str) : Substring (strip s) s.
Proof.
  unfold strip, rstrip.
  destruct (lstrip_suffix s) as [a Ha].
  destruct (lstrip_suffix (rev (lstrip s))) as [b Hb].
  exists a, (rev b). rewrite Ha at 1. f_equal.
  rewrite <- (rev_involutive (lstrip s)) at 1. rewrite Hb at 1.
  by rewrite rev_app_distr.
Qed.

Lemma Substring_lstrip (c : N) (sub s : str) :
  isspace c = false → Substring (c :: sub) s → Substring (c :: sub) (lstrip s).
Proof.
  intros Hc. induction s as [|d s IH]; [done|].
  simpl. destruct (isspace d) eqn:Hd; [|done].
  intros (a & b & Hab). apply IH. destruct a as [|d' a].
  - injection Hab as -> _. congruence.
  - injection Hab as _ ->. by exists a, b.
Qed.

Lemma Substring_rstrip (c : N) (sub s : str) :
  isspace c = false → Substring (sub ++ [c]) s → Substring (sub ++ [c]) (rstrip s).
Proof.
  intros Hc Hs. unfold rstrip.
  apply Substring_rev in Hs. rewrite rev_app_distr in Hs. simpl in Hs.
  apply (Substring_lstrip _ _ _ Hc), Substring_rev in Hs.
  simpl in Hs. by rewrite rev_involutive in Hs.
Qed.

Lemma solid_inv (kw : str) :
  solid kw = true →
  (NL ∉ kw)
  ∧ (∃ c r, kw = c :: r ∧ isspace c = false)
  ∧ (∃ c r, kw = r ++ [c] ∧ isspace c = false).
Proof.
  unfold solid. rewrite !andb_true_iff, negb_true_iff.
  intros [[Hnl Hhead] Hlast]. split; [|split].
  - intros Hin. apply not_true_iff_false in Hnl. apply Hnl.
    apply existsb_exists. exists NL. split; [by apply list_elem_of_In|].
    apply N.eqb_refl.
  - destruct kw as [|c r]; [done|]. exists c, r.
    by apply negb_true_iff in Hhead.
  - destruct (rev kw) as [|c r] eqn:Hrev; [done|]. exists c, (rev r).
    apply negb_true_iff in Hlast. split; [|done].
    by rewrite <- (rev_involutive kw), Hrev.
Qed.

(** A solid keyword found in a line is found in the trimmed line. *)
Lemma Substring_strip (kw s : str) :
  solid kw = true → Substring kw s → Substring kw (strip s).
Proof.
  intros Hkw Hs. apply solid_inv in Hkw as (_ & (c & r & Hc & Hsp) & (d & t & Hd & Hsp')).
  unfold strip. rewrite Hd. apply Substring_rstrip; [done|]. rewrite <- Hd.
  rewrite Hc. apply Substring_lstrip; [done|]. by rewrite <- Hc.
Qed.

Lemma split_not_nil (sep : N) (s : str) : split sep s ≠ [].
Proof.
  induction s as [|c s IH]; simpl; [done|].
  destruct (c =? sep); [done|]. by destruct (split sep s).
Qed.

Lemma join_split (sep : N) (s : str) : PyStr.join [sep] (split sep s) = s.
Proof.
  induction s as [|c s IH]; simpl; [done|].
  pose proof (split_not_nil sep s) as Hne.
  destruct (N.eqb_spec c sep) as [->|Hc].
  - destruct (split sep s) as [|w ws]; [done|]. simpl in *. by rewrite IH.
  - destruct (split sep s) as [|w ws]; [done|].
    destruct ws; simpl in *; by rewrite <- IH.
Qed.

Lemma Substring_join_elem (sep p : str) (ps : list str) :
  p ∈ ps → Substring p (PyStr.join sep ps).
Proof.
  induction ps as [|q ps IH]; [by intros ?%elem_of_nil|].
  intros [->|Hin]%elem_of_cons.
  - destruct ps; simpl; [apply Substring_refl|].
    apply Substring_app_l, Substring_refl.
  - destruct ps as [|q' ps]; [by apply elem_of_nil in Hin|].
    change (Substring p (q ++ sep ++ PyStr.join sep (q' :: ps))).
    by apply Substring_app_r, Substring_app_r, IH.
Qed.

Lemma Substring_join_inv (sep : N) (kw : str) (ps : list str) :
  sep ∉ kw → kw ≠ [] → Substring kw (PyStr.join [sep] ps) →
  ∃ p, p ∈ ps ∧ Substring kw p.
Proof.
  intros Hsep Hne. induction ps as [|q ps IH].
  - simpl. intros (a & b & Hab). destruct a, kw; done.
  - destruct ps as [|q' ps].
    + simpl. intros Hq. exists q. split; [left|done].
    + change (PyStr.join [sep] (q :: q' :: ps))
        with (q ++ sep :: PyStr.join [sep] (q' :: ps)).
      intros [Hq|Hrest]%Substring_across; [| |done].
      * exists q. split; [left|done].
      * destruct (IH Hrest) as (p & Hp & Hsub). exists p. split; [by right|done].
Qed.

Lemma filter_map_strip (lines : list str) :
  map strip (List.filter (fun line => negb (str_eqb (strip line) [])) lines)
  = List.filter (fun line => negb (str_eqb line [])) (map strip lines).
Proof.
  induction lines as [|l lines IH]; simpl; [done|].
  destruct (negb (str_eqb (strip l) [])); simpl; by rewrite IH.
Qed.

Lemma List_filter_sublist {A : Type} (p : A → bool) (l : list A) :
  List.filter p l `sublist_of` l.
Proof.
  induction l as [|x l IH]; simpl; [done|].
  destruct (p x); [by apply sublist_skip|by apply sublist_cons].
Qed.

Lemma elem_of_List_filter {A : Type} (p : A → bool) (l : list A) (x : A) :
  x ∈ List.filter p l ↔ x ∈ l ∧ p x = true.
Proof. rewrite !list_elem_of_In. apply filter_In. Qed.

Lemma keywords_solid : Forall (fun kw => solid kw = true) ExtractNav.keywords.
Proof. repeat constructor. Qed.

(** ** Regular expressions *)

Lemma span_app (p : N → bool) (s g r : str) :
  span p s = (g, r) →
  s = g ++ r ∧ Forall (fun c => p c = true) g
  ∧ match r with [] => True | c :: _ => p c = false end.
Proof.
  revert g r. induction s as [|c s IH]; intros g r; simpl.
  - by intros [= <- <-].
  - destruct (p c) eqn:Hc.
    + destruct (span p s) as [g' r'] eqn:Hspan. intros [= <- <-].
      destruct (IH g' r' eq_refl) as (-> & Hall & Hr).
      split; [done|]. split; [by constructor|done].
    + intros [= <- <-]. split; [done|]. split; [constructor|done].
Qed.

Lemma span_run (p : N → bool) (g rest : str) :
  Forall (fun c => p c = true) g →
  match rest with [] => True | c :: _ => p c = false end →
  span p (g ++ rest) = (g, rest).
Proof.
  intros Hall Hrest. induction Hall as [|c g Hc _ IH]; simpl.
  - destruct rest as [|c rest]; [done|]. simpl. by rewrite Hrest.
  - by rewrite Hc, IH.
Qed.

Lemma match_here_sound (pre : str) (cls : N → bool) (post s g : str) :
  Re.match_here pre cls post s = Some g →
  ∃ b, s = pre ++ g ++ post ++ b ∧ g ≠ [] ∧ Forall (fun c => cls c = true) g.
Proof.
  unfold Re.match_here.
  destruct (strip_prefix pre s) as [r|] eqn:Hpre; [|done].
  apply strip_prefix_Some in Hpre as ->.
  destruct (span cls r) as [g' r'] eqn:Hspan.
  apply span_app in Hspan as (-> & Hall & _).
  destruct g' as [|c g']; [done|].
  destruct (startswith post r') eqn:Hpost; [|done].
  apply startswith_prefix in Hpost as [b ->]. intros [= <-].
  exists b. by rewrite <- ?app_assoc.
Qed.

Lemma match_here_complete (pre : str) (cls : N → bool) (q : N) (post g b : str) :
  cls q = false → g ≠ [] → Forall (fun c => cls c = true) g →
  Re.match_here pre cls (q :: post) (pre ++ g ++ (q :: post) ++ b) = Some g.
Proof.
  intros Hq Hne Hall. unfold Re.match_here.
  rewrite (proj2 (strip_prefix_Some pre _ _) eq_refl).
  rewrite (span_run cls g ((q :: post) ++ b) Hall Hq).
  destruct g as [|c g]; [done|].
  by rewrite (proj2 (startswith_prefix (q :: post) _)); [|by exists b].
Qed.

Lemma search_sound (pre : str) (cls : N → bool) (post s g : str) :
  Re.search pre cls post s = Some g → PatternOccurs pre cls post s g.
Proof.
  induction s as [|c s IH]; simpl.
  - destruct (Re.match_here pre cls post []) as [g'|] eqn:Hm; [|done].
    intros [= ->]. apply match_here_sound in Hm as (b & Hs & Hne & Hall).
    by exists [], b.
  - destruct (Re.match_here pre cls post (c :: s)) as [g'|] eqn:Hm.
    + intros [= ->]. apply match_here_sound in Hm as (b & Hs & Hne & Hall).
      by exists [], b.
    + intros (a & b & -> & Hne & Hall)%IH. by exists (c :: a), b.
Qed.

Lemma search_unfold (pre : str) (cls : N → bool) (post s : str) :
  Re.search pre cls post s
  = match Re.match_here pre cls post s with
    | Some g => Some g
    | None => match s with [] => None | _ :: s' => Re.search pre cls post s' end
    end.
Proof. by destruct s. Qed.

Lemma search_complete (pre : str) (cls : N → bool) (q : N) (post s g : str) :
  cls q = false → PatternOccurs pre cls (q :: post) s g →
  is_Some (Re.search pre cls (q :: post) s).
Proof.
  intros Hq (a & b & -> & Hne & Hall).
  induction a as [|c a IH].
  - rewrite search_unfold. cbn [app].
    change (pre ++ g ++ q :: post ++ b) with (pre ++ g ++ (q :: post) ++ b).
    by rewrite match_here_complete.
  - rewrite search_unfold. cbn [app]. by destruct (Re.match_here _ _ _ _).
Qed.

(** A row has an extractable URL exactly when its title markup carries a
    link. *)
Lemma search_href_HasLink (title_html : str) :
  is_Some (Re.search_href title_html) ↔ HasLink title_html.
Proof.
  unfold Re.search_href, HasLink. split.
  - intros [url Hurl]. exists url. by apply search_sound.
  - intros [url Hurl]. by eapply search_complete.
Qed.

Lemma search_href_needs_href (title_html : str) :
  ¬ Substring (u "href") title_html → Re.search_href title_html = None.
Proof.
  intros Hno. destruct (Re.search_href title_html) as [url|] eqn:Hs; [|done].
  destruct Hno. apply search_sound in Hs as (a & b & -> & _).
  exists a, ([61; DQUOTE] ++ url ++ [DQUOTE] ++ b). by rewrite <- ?app_assoc.
Qed.

(** ** The candidate extractor ([parse_data]) *)

Lemma raw_lines_spec (text : str) :
  ExtractNav.raw_lines (ExtractNav.parse_data text) = spec_trimmed_lines text.
Proof. apply filter_map_strip. Qed.

Lemma elem_of_trimmed_lines (text line : str) :
  line ∈ spec_trimmed_lines text ↔
  line ≠ [] ∧ ∃ l, l ∈ split NL text ∧ line = strip l.
Proof.
  unfold spec_trimmed_lines.
  rewrite elem_of_List_filter, list_elem_of_fmap, negb_true_iff.
  unfold str_eqb. rewrite bool_decide_eq_false. split.
  - intros [(l & -> & Hl) Hne]. split; [done|by exists l].
  - intros [Hne (l & Hl & ->)]. split; [by exists l|done].
Qed.

(** For a solid keyword, looking in the recognized text and looking in
    the joined trimmed lines find the same. *)
Lemma Substring_trimmed_lines (kw text : str) :
  solid kw = true →
  Substring kw text ↔ Substring kw (PyStr.join [NL] (spec_trimmed_lines text)).
Proof.
  intros Hkw. destruct (solid_inv kw Hkw) as (Hnl & (c & r & Hc & _) & _).
  assert (kw ≠ []) as Hne by (by rewrite Hc).
  split.
  - intros Hsub. rewrite <- (join_split NL text) in Hsub.
    apply Substring_join_inv in Hsub as (p & Hp & Hsub); [|done..].
    apply (Substring_strip _ _ Hkw) in Hsub.
    eapply Substring_trans; [exact Hsub|].
    apply Substring_join_elem, elem_of_trimmed_lines. split; [|by exists p].
    intros Hnil. rewrite Hnil in Hsub. destruct Hsub as (a & b & Hab).
    destruct a, kw; done.
  - intros Hsub.
    apply Substring_join_inv in Hsub as (line & Hline & Hsub); [|done..].
    apply elem_of_trimmed_lines in Hline as (_ & l & Hl & ->).
    eapply Substring_trans; [exact Hsub|].
    eapply Substring_trans; [apply strip_Substring|].
    pose proof (Substring_join_elem [NL] l _ Hl) as Hin.
    by rewrite join_split in Hin.
Qed.

(** C5. [parse_data] trims every line of the recognized text and drops
    the empty ones, keeping the order of the others; its keyword hits are
    exactly the keywords of the fixed list that occur in the text, which
    is the same as occurring in the joined trimmed lines, in the order of
    the list; a text without any keyword gives no hit and the same lines. *)
Theorem parse_data_lines_and_keywords (text : str) :
  let data := ExtractNav.parse_data text in
  ExtractNav.raw_lines data = spec_trimmed_lines text
  ∧ ExtractNav.raw_lines data `sublist_of` map strip (split NL text)
  ∧ ExtractNav.found_keywords data `sublist_of` ExtractNav.keywords
  ∧ (∀ kw, kw ∈ ExtractNav.found_keywords data ↔
           kw ∈ ExtractNav.keywords ∧ Substring kw text)
  ∧ (∀ kw, kw ∈ ExtractNav.found_keywords data ↔
           kw ∈ ExtractNav.keywords
           ∧ Substring kw (PyStr.join [NL] (ExtractNav.raw_lines data)))
  ∧ ((∀ kw, kw ∈ ExtractNav.keywords → ¬ Substring kw text) →
     ExtractNav.found_keywords data = []
     ∧ ExtractNav.raw_lines data = spec_trimmed_lines text).
Proof.
  cbv zeta.
  assert (∀ kw, kw ∈ ExtractNav.found_keywords (ExtractNav.parse_data text) ↔
                kw ∈ ExtractNav.keywords ∧ Substring kw text) as Hhits.
  { intros kw. cbn [ExtractNav.parse_data ExtractNav.found_keywords].
    by rewrite elem_of_List_filter, contains_Substring. }
  split; [apply raw_lines_spec|].
  split; [rewrite raw_lines_spec; apply List_filter_sublist|].
  split; [apply List_filter_sublist|].
  split; [exact Hhits|].
  split.
  - intros kw. rewrite Hhits, raw_lines_spec.
    pose proof keywords_solid as Hall. rewrite Forall_forall in Hall.
    split; intros [Hin Hsub]; (split; [done|]);
      by apply (Substring_trimmed_lines kw text (Hall kw Hin)).
  - intros Hnone. split; [|apply raw_lines_spec].
    destruct (ExtractNav.found_keywords (ExtractNav.parse_data text)) as [|kw hits] eqn:Hfound; [done|].
    exfalso. destruct (Hhits kw) as [Hkw _].
    destruct Hkw as [Hin Hsub]; [left|]. by apply (Hnone kw).
Qed.

Example parse_data_example :
  ExtractNav.parse_data (u "  Fund NAV 10.13 " ++ [NL; 32; NL] ++ u "मूल्य 12" ++ [NL])
  = {| ExtractNav.found_keywords := [u "मूल्य"; u "NAV"];
       ExtractNav.raw_lines := [u "Fund NAV 10.13"; u "मूल्य 12"] |}.
Proof. reflexivity. Qed.

(** A keyword-free text, through the theorem. *)
Lemma parse_data_no_marker_witness :
  ExtractNav.found_keywords (ExtractNav.parse_data (u " total 12 " ++ [NL] ++ u "units")) = []
  ∧ ExtractNav.raw_lines (ExtractNav.parse_data (u " total 12 " ++ [NL] ++ u "units"))
    = [u "total 12"; u "units"].
Proof.
  destruct (parse_data_lines_and_keywords (u " total 12 " ++ [NL] ++ u "units"))
    as (_ & _ & _ & _ & _ & Hnone).
  split; [|reflexivity].
  apply Hnone. intros kw Hin. apply contains_false.
  repeat (apply elem_of_cons in Hin as [->|Hin]; [reflexivity|]).
  by apply elem_of_nil in Hin.
Defined.

(** ** Loops that return at the first match *)

Lemma find_first {A : Type} (p : A → bool) (l : list A) (x : A) :
  List.find p l = Some x ↔
  ∃ pre post, l = pre ++ x :: post ∧ p x = true ∧ ∀ y, y ∈ pre → p y = false.
Proof.
  induction l as [|a l IH]; simpl.
  - split; [done|]. intros (pre & post & Heq & _). by destruct pre.
  - destruct (p a) eqn:Hpa.
    + split.
      * intros [= <-]. exists [], l. split; [done|]. split; [done|].
        by intros y ?%elem_of_nil.
      * intros (pre & post & Heq & Hx & Hpre). destruct pre as [|b pre].
        -- by injection Heq as ->.
        -- injection Heq as <- _. rewrite Hpre in Hpa; [done|left].
    + rewrite IH. split.
      * intros (pre & post & -> & Hx & Hpre). exists (a :: pre), post.
        split; [done|]. split; [done|].
        intros y [->|Hy]%elem_of_cons; [done|by apply Hpre].
      * intros (pre & post & Heq & Hx & Hpre). destruct pre as [|b pre].
        -- injection Heq as <- _. congruence.
        -- injection Heq as _ ->. exists pre, post. split; [done|].
           split; [done|]. intros y Hy. apply Hpre. by right.
Qed.






(** ** The pipeline of [main.py] *)

Section PipelineFacts.
Context `{Env}.

Lemma raise_for_status_ok (resp : Response) (s : State) :
  status_ok resp → raise_for_status resp s = (s, inr tt).
Proof.
  unfold status_ok, raise_for_status. intros Hok.
  destruct (_ && _) eqn:Hb; [|done].
  apply andb_true_iff in Hb as [?%Z.leb_le ?%Z.ltb_lt]. lia.
Qed.

Lemma raise_for_status_error (resp : Response) (s : State) :
  (400 ≤ status_code resp < 600)%Z →
  raise_for_status resp s = (s, inl (HTTPError (status_code resp))).
Proof.
  unfold raise_for_status. intros [?%Z.leb_le ?%Z.ltb_lt].
  by destruct (_ && _) eqn:Hb; [|apply andb_false_iff in Hb as [?|?]; congruence].
Qed.

Lemma send_answer (r : Request) (s : State) (w : World) (answer : exn + Response) :
  http (world s) r = (w, answer) →
  send r s = (with_event (Sent r) (with_world w s), answer).
Proof. unfold send. by intros ->. Qed.

Lemma is_nav_title_Matches (title : str) :
  Main.is_nav_title (Main.lower title) = true ↔ MatchesDisclosure title.
Proof.
  unfold Main.is_nav_title, MatchesDisclosure.
  by rewrite orb_true_iff, !contains_Substring.
Qed.

Lemma find_latest_nav_announcement_find (announcements : list Announcement.t) :
  Main.find_latest_nav_announcement announcements
  = List.find (fun ann => Main.is_nav_title (Main.lower (Announcement.title ann)))
              announcements.
Proof.
  induction announcements as [|ann rest IH]; simpl; [done|].
  by destruct (Main.is_nav_title _).
Qed.



Lemma announcement_of_item_row (item : JSON) :
  is_feed_row item →
  Main.announcement_of_item item = inr (spec_announcement_of_row item).
Proof.
  intros (fields & title_html & -> & Htitle).
  unfold Main.announcement_of_item, spec_announcement_of_row, Py.get.
  fold (title_html_of fields). rewrite Htitle. cbn.
  by destruct (Re.search_href title_html).
Qed.

Lemma announcements_loop_rows (items : list JSON) (acc : list Announcement.t) :
  Forall is_feed_row items →
  Main.announcements_loop items acc
  = inr (acc ++ omap spec_announcement_of_row items).
Proof.
  intros Hrows. revert acc.
  induction Hrows as [|item items Hrow _ IH]; intros acc; cbn.
  - by rewrite app_nil_r.
  - rewrite (announcement_of_item_row _ Hrow). cbn.
    destruct (spec_announcement_of_row item) as [ann|]; [|apply IH].
    rewrite IH. by rewrite <- app_assoc.
Qed.

(** C10. When the announcement query is answered with a feed of rows,
    [fetch_fund_announcements] returns, in the order of the response, one
    announcement per row whose title markup carries a link, with the
    anchor text as title (empty when there is none); a row without link,
    in particular one without any [href], is left out. *)
Theorem fetch_fund_announcements_rows
    (symbol fund_name : str) (s : State) (w1 w2 : World) (r1 r2 : Response)
    (fields : list (str * JSON)) (items : list JSON) :
  http (world s) (Main.profile_request symbol) = (w1, inr r1) →
  http w1 (Main.announcements_request symbol
             (Main.csrf_token_of (soup r1)) (Main.company_id_of (soup r1))
             (Main.symbol_val_of (soup r1) symbol) (Main.sector_val_of (soup r1)))
  = (w2, inr r2) →
  status_ok r2 →
  json_doc r2 = Some (JObject fields) →
  Py.assoc (u "data") fields = Some (JArray items) →
  Forall is_feed_row items →
  (Main.fetch_fund_announcements symbol fund_name s).2
  = inr (omap spec_announcement_of_row items)
  ∧ ∀ row_fields title_html,
      title_html_of row_fields = JString title_html →
      (is_Some (spec_announcement_of_row (JObject row_fields)) ↔ HasLink title_html)
      ∧ (¬ Substring (u "href") title_html →
         spec_announcement_of_row (JObject row_fields) = None).
Proof.
  intros Hget Hpost Hok Hjson Hdata Hrows. split.
  - unfold Main.fetch_fund_announcements, mbind, M_bind.
    rewrite (send_answer _ _ _ _ Hget).
    rewrite (send_answer _ (with_event _ (with_world w1 s)) _ _ Hpost).
    rewrite (raise_for_status_ok _ _ Hok).
    unfold resp_json. rewrite Hjson.
    unfold mret, M_ret, lift, Py.get. cbv beta iota. rewrite Hdata.
    simpl. by rewrite (announcements_loop_rows _ _ Hrows).
  - intros row_fields title_html Htitle. cbn. rewrite Htitle. split.
    + rewrite <- search_href_HasLink.
      destruct (Re.search_href title_html); split; intros [? ?]; done.
    + intros Hno. by rewrite (search_href_needs_href _ Hno).
Qed.

(** C1, as the code has it.  When the token meta element or a hidden
    field is missing from the profile page, [fetch_fund_announcements]
    does not fail: a missing token, company id or sector becomes the
    empty string, a missing symbol field becomes the fund's own symbol,
    and the announcement query is sent with these values. *)
Theorem fetch_fund_announcements_missing_fields
    (symbol fund_name : str) (s : State) (w : World) (resp : Response) :
  http (world s) (Main.profile_request symbol) = (w, inr resp) →
  (Soup.find_named_with (u "meta") (u "name") (u "_token") (soup resp) = None →
   Main.csrf_token_of (soup resp) = Some [])
  ∧ (Soup.find_id (u "companyid") (soup resp) = None →
     Main.company_id_of (soup resp) = [])
  ∧ (Soup.find_id (u "symbol") (soup resp) = None →
     Main.symbol_val_of (soup resp) symbol = symbol)
  ∧ (Soup.find_id (u "sector") (soup resp) = None →
     Main.sector_val_of (soup resp) = [])
  ∧ trace (Main.fetch_fund_announcements symbol fund_name s).1
    = trace s ++
      [Sent (Main.profile_request symbol);
       Sent (Main.announcements_request symbol
               (Main.csrf_token_of (soup resp)) (Main.company_id_of (soup resp))
               (Main.symbol_val_of (soup resp) symbol)
               (Main.sector_val_of (soup resp)))].
Proof.
  intros Hget.
  split; [by unfold Main.csrf_token_of; intros ->|].
  split; [by unfold Main.company_id_of; intros ->|].
  split; [by unfold Main.symbol_val_of; intros ->|].
  split; [by unfold Main.sector_val_of; intros ->|].
  unfold Main.fetch_fund_announcements, mbind, M_bind.
  rewrite (send_answer _ _ _ _ Hget).
  set (post := Main.announcements_request _ _ _ _ _).
  unfold send at 1. cbn [world with_event with_world].
  destruct (http w post) as [w2 [e|r2]]; cbn; [by rewrite <- app_assoc|].
  unfold raise_for_status. destruct (_ && _); cbn; [by rewrite <- app_assoc|].
  unfold resp_json. destruct (json_doc r2) as [doc|]; cbn; [|by rewrite <- app_assoc].
  destruct (Py.get doc _ _) as [e|rows]; cbn; [by rewrite <- app_assoc|].
  destruct (Py.iter rows) as [e|items]; cbn; [by rewrite <- app_assoc|].
  destruct (Main.announcements_loop items []); cbn; by rewrite <- app_assoc.
Qed.

(** C3, as the code has it.  [fetch_open_end_funds] fails with the
    transport's exception when the request fails and with an [HTTPError]
    on a 4xx or 5xx status; when the decoded response object has no
    [data] field it returns an empty list of funds, without any error. *)
Theorem fetch_open_end_funds_outcomes
    (s : State) (w : World) (answer : exn + Response) :
  http (world s) directory_request = (w, answer) →
  (∀ e, answer = inl e →
        Main.fetch_open_end_funds s
        = (with_event (Sent directory_request) (with_world w s), inl e))
  ∧ (∀ resp, answer = inr resp → (400 ≤ status_code resp < 600)%Z →
             Main.fetch_open_end_funds s
             = (with_event (Sent directory_request) (with_world w s),
                inl (HTTPError (status_code resp))))
  ∧ (∀ resp fields,
       answer = inr resp → status_ok resp →
       json_doc resp = Some (JObject fields) →
       Py.assoc (u "data") fields = None →
       Main.fetch_open_end_funds s
       = (with_event (Sent directory_request) (with_world w s), inr [])).
Proof.
  intros Hget.
  unfold Main.fetch_open_end_funds, Main.requests_get, mbind, M_bind.
  fold directory_request. rewrite (send_answer _ _ _ _ Hget).
  split; [by intros e ->|]. split.
  - intros resp -> Hstatus. by rewrite (raise_for_status_error _ _ Hstatus).
  - intros resp fields -> Hok Hjson Hdata.
    rewrite (raise_for_status_ok _ _ Hok). unfold resp_json. rewrite Hjson.
    unfold mret, M_ret, lift, Py.get. cbv beta iota. by rewrite Hdata.
Qed.



(** ** The recognition CLI of [extract_nav.py] *)








(** ** Fault isolation in the two loops of [main] *)

Lemma fetch_fund_announcements_stdout (symbol fund_name : str) (s : State) :
  stdout (Main.fetch_fund_announcements symbol fund_name s).1 = stdout s.
Proof.
  unfold Main.fetch_fund_announcements, mbind, M_bind, send.
  destruct (http (world s) _) as [w [e|resp]]; [done|].
  cbn [world with_event with_world].
  destruct (http w _) as [w2 [e|r2]]; [done|].
  unfold raise_for_status. destruct (_ && _); [done|]. cbn.
  unfold resp_json. destruct (json_doc r2) as [doc|]; [|done]. cbn.
  destruct (Py.get doc _ _) as [e|rows]; [done|]. cbn.
  destruct (Py.iter rows) as [e|items]; [done|]. cbn.
  by destruct (Main.announcements_loop items []).
Qed.

Lemma extract_image_url_stdout (announcement_url : str) (s : State) :
  stdout (Main.extract_image_url announcement_url s).1 = stdout s.
Proof.
  unfold Main.extract_image_url, Main.requests_get, mbind, M_bind, send.
  destruct (http (world s) _) as [w [e|resp]]; [done|].
  unfold raise_for_status. by destruct (_ && _).
Qed.

Lemma download_image_stdout (url symbol : str) (s : State) :
  stdout (Main.download_image url symbol s).1 = stdout s.
Proof.
  unfold Main.download_image, Main.requests_get, mkdir_exist_ok, mbind, M_bind.
  unfold mret at 1, M_ret at 1. cbv beta iota. unfold send.
  destruct (http (world s) _) as [w [e|resp]]; [done|].
  unfold raise_for_status. by destruct (_ && _).
Qed.

(** The [try] of a fund raises only before anything is printed, and
    otherwise returns the list it was given, possibly extended. *)
Lemma resolve_fund_result (fund : Fund.t) (acc : list NavImage.t) (s : State) :
  match Main.resolve_fund fund acc s with
  | (s', inl _) => stdout s' = stdout s
  | (_, inr acc') => ∃ later, acc' = acc ++ later
  end.
Proof.
  unfold Main.resolve_fund, mbind, M_bind.
  pose proof (fetch_fund_announcements_stdout (Fund.symbol fund) (Fund.name fund) s)
    as Hout.
  destruct (Main.fetch_fund_announcements _ _ s) as [s1 [e|announcements]];
    [done|].
  destruct (Main.find_latest_nav_announcement announcements); cbn.
  - by eexists.
  - exists []. by rewrite app_nil_r.
Qed.

Lemma acquire_item_result (item : NavImage.t) (acc : list Downloaded.t) (s : State) :
  match Main.acquire_item item acc s with
  | (s', inl _) => stdout s' = stdout s
  | (_, inr acc') => ∃ later, acc' = acc ++ later
  end.
Proof.
  unfold Main.acquire_item, mbind, M_bind.
  pose proof (extract_image_url_stdout
                (Announcement.url (NavImage.announcement item)) s) as Hout.
  destruct (Main.extract_image_url _ s) as [s1 [e|img_url]]; [done|].
  destruct img_url as [[|c img_url]|]; cbn.
  - exists []. by rewrite app_nil_r.
  - pose proof (download_image_stdout (c :: img_url) (NavImage.symbol item) s1)
      as Hout'.
    destruct (Main.download_image _ _ s1) as [s2 [e|filepath]]; cbn in *.
    + congruence.
    + by eexists.
  - exists []. by rewrite app_nil_r.
Qed.

Lemma nav_images_loop_cons
    (fund : Fund.t) (rest : list Fund.t) (acc : list NavImage.t) (s : State) :
  Main.nav_images_loop (fund :: rest) acc s
  = match try_except (Main.resolve_fund fund acc) (Main.log_error acc)
                     (Main.announce (Fund.symbol fund) s).1 with
    | (s', inr acc') => Main.nav_images_loop rest acc' (sleep s').1
    | (s', inl e) => (s', inl e)
    end.
Proof. reflexivity. Qed.

Lemma downloaded_loop_cons
    (item : NavImage.t) (rest : list NavImage.t) (acc : list Downloaded.t)
    (s : State) :
  Main.downloaded_loop (item :: rest) acc s
  = match try_except (Main.acquire_item item acc) (Main.log_error acc)
                     (Main.announce (NavImage.symbol item) s).1 with
    | (s', inr acc') => Main.downloaded_loop rest acc' (sleep s').1
    | (s', inl e) => (s', inl e)
    end.
Proof. reflexivity. Qed.

(** One turn of either loop never raises. *)
Lemma guarded_turn_total {A : Type} (body : M (list A)) (acc : list A) (s : State) :
  match body s with
  | (_, inl _) => True
  | (_, inr acc') => ∃ later, acc' = acc ++ later
  end →
  ∃ s' later, try_except body (Main.log_error acc) s = (s', inr (acc ++ later)).
Proof.
  unfold try_except. destruct (body s) as [s1 [e|acc']].
  - intros _. eexists _, []. by rewrite app_nil_r.
  - intros [later ->]. by exists s1, later.
Qed.








End PipelineFacts.

(** * The scripts on a concrete world *)

Example u_ascii : u "NAV" = [78; 65; 86].
Proof. reflexivity. Qed.

Example u_devanagari : u "मूल्य" = [2350; 2370; 2354; 2381; 2351].
Proof. reflexivity. Qed.

Example split_keeps_empty :
  split NL (u "a" ++ [NL; NL] ++ u "b") = [u "a"; []; u "b"].
Proof. reflexivity. Qed.

Example strip_both_sides : strip ([32; 9] ++ u "a b" ++ [160; 10]) = u "a b".
Proof. reflexivity. Qed.

Example search_href_example :
  Re.search_href (Scenario.anchor Scenario.nav_url (u "NAV")) = Some Scenario.nav_url.
Proof. reflexivity. Qed.

Example suffix_example :
  PathLib.suffix (PathLib.parse Scenario.image_url) = u ".png".
Proof. reflexivity. Qed.

Example directory_example :
  (@Main.fetch_open_end_funds Scenario.E Scenario.s0).2
  = inr [Scenario.fund_AAA; Scenario.fund_BBB; Scenario.fund_CCC].
Proof. reflexivity. Qed.

Example nav_images_example :
  (@Main.nav_images_loop Scenario.E
     [Scenario.fund_AAA; Scenario.fund_BBB; Scenario.fund_CCC] [] Scenario.s0).2
  = inr [Scenario.nav_image_AAA].
Proof. reflexivity. Qed.

Example downloaded_example :
  (@Main.downloaded_loop Scenario.E
     [Scenario.nav_image_AAA; Scenario.nav_image_lost] [] Scenario.s0).2
  = inr [Scenario.downloaded_AAA].
Proof. reflexivity. Qed.

(** Fund AAA has a profile page without token or hidden fields: nothing
    is raised, the announcement query goes out with an empty token, and
    the announcements of the feed come back. *)
Lemma fetch_fund_announcements_bare_profile_succeeds :
  @http Scenario.E tt (@Main.profile_request Scenario.E (u "AAA"))
  = (tt, inr (Scenario.ok_page Scenario.bare_profile))
  ∧ Soup.find_named_with (u "meta") (u "name") (u "_token") Scenario.bare_profile = None
  ∧ Soup.find_id (u "companyid") Scenario.bare_profile = None
  ∧ Soup.find_id (u "symbol") Scenario.bare_profile = None
  ∧ Soup.find_id (u "sector") Scenario.bare_profile = None
  ∧ (@Main.fetch_fund_announcements Scenario.E (u "AAA") (u "Alpha Fund") Scenario.s0).2
    = inr [Scenario.agm_announcement; Scenario.nav_announcement]
  ∧ ¬ ∃ e, (@Main.fetch_fund_announcements Scenario.E (u "AAA") (u "Alpha Fund")
              Scenario.s0).2 = inl e.
Proof.
  repeat (split; [reflexivity|]). intros [e He]. vm_compute in He. discriminate.
Qed.

Lemma fetch_fund_announcements_missing_fields_witness :
  trace (@Main.fetch_fund_announcements Scenario.E (u "AAA") (u "Alpha Fund")
           Scenario.s0).1
  = [Sent (@Main.profile_request Scenario.E (u "AAA"));
     Sent (@Main.announcements_request Scenario.E (u "AAA") (Some []) []
             (u "AAA") [])].
Proof.
  destruct (@fetch_fund_announcements_missing_fields Scenario.E
              (u "AAA") (u "Alpha Fund") Scenario.s0 tt
              (Scenario.ok_page Scenario.bare_profile) eq_refl)
    as (Htoken & Hcompany & Hsymbol & Hsector & Htrace).
  rewrite Htrace, (Htoken eq_refl), (Hcompany eq_refl), (Hsymbol eq_refl),
    (Hsector eq_refl).
  reflexivity.
Defined.

(** The directory endpoint answers an object without [data]: the list of
    funds is empty and nothing is raised. *)
Lemma fetch_open_end_funds_without_data_succeeds :
  @http Scenario.E' tt directory_request
  = (tt, inr (Scenario.ok_json Scenario.directory_without_data))
  ∧ Py.assoc (u "data") [(u "draw", JInt 1); (u "recordsTotal", JInt 0)] = None
  ∧ (@Main.fetch_open_end_funds Scenario.E' Scenario.s0').2 = inr []
  ∧ ¬ ∃ e, (@Main.fetch_open_end_funds Scenario.E' Scenario.s0').2 = inl e.
Proof.
  repeat (split; [reflexivity|]). intros [e He]. vm_compute in He. discriminate.
Qed.

Lemma fetch_open_end_funds_outcomes_witness :
  @Main.fetch_open_end_funds Scenario.E' Scenario.s0'
  = (with_event (Sent directory_request) (@with_world Scenario.E' tt Scenario.s0'), inr []).
Proof.
  destruct (@fetch_open_end_funds_outcomes Scenario.E' Scenario.s0' tt
              (inr (Scenario.ok_json Scenario.directory_without_data)) eq_refl)
    as (_ & _ & Hempty).
  apply (Hempty (Scenario.ok_json Scenario.directory_without_data)
                [(u "draw", JInt 1); (u "recordsTotal", JInt 0)]);
    [reflexivity| |reflexivity|reflexivity].
  unfold status_ok. simpl. lia.
Defined.





Lemma fetch_fund_announcements_rows_witness :
  (@Main.fetch_fund_announcements Scenario.E (u "AAA") (u "Alpha Fund") Scenario.s0).2
  = inr [Scenario.agm_announcement; Scenario.nav_announcement].
Proof.
  assert (status_ok (Scenario.ok_json Scenario.feed_with_nav)) as Hok.
  { unfold status_ok. simpl. lia. }
  refine (proj1 (@fetch_fund_announcements_rows Scenario.E
                   (u "AAA") (u "Alpha Fund") Scenario.s0 tt tt
                   (Scenario.ok_page Scenario.bare_profile)
                   (Scenario.ok_json Scenario.feed_with_nav)
                   _ _ eq_refl eq_refl Hok eq_refl eq_refl _)).
  repeat constructor; eexists _, _; split; reflexivity.
Defined.


(** * Further properties of [main.py] *)

Section DirectoryFacts.
Context `{Env}.

(** ** The directory listing *)

Lemma fund_of_item_accepts (item : JSON) :
  (∃ fund, Main.fund_of_item item = inr fund) ↔ is_directory_row item.
Proof.
  unfold is_directory_row, string_or_missing. split.
  - intros [fund Hfund]. destruct item as [| | | | |l|fields]; try done.
    exists fields. split; [done|]. revert Hfund.
    unfold Main.fund_of_item, Py.get. cbn [mbind result_bind].
    destruct (default (JString []) (Py.assoc (u "symbol") fields))
      as [| | | |symbol_text| |]; try done.
    cbn [Py.as_str mbind result_bind].
    destruct (default (JString []) (Py.assoc (u "companyname") fields))
      as [| | | |name_text| |]; try done.
    intros _. split; by eexists.
  - intros (fields & -> & [symbol_text Hsymbol] & [name_text Hname]).
    unfold Main.fund_of_item, Py.get. cbn [mbind result_bind].
    rewrite Hsymbol. cbn [Py.as_str mbind result_bind].
    rewrite Hname. cbn [Py.as_str mbind result_bind]. by eexists.
Qed.

Lemma funds_loop_success (items : list JSON) (acc res : list Fund.t) :
  Main.funds_loop items acc = inr res ↔
  ∃ funds, Forall2 (fun item fund => Main.fund_of_item item = inr fund) items funds
           ∧ res = acc ++ funds.
Proof.
  revert acc. induction items as [|item items IH]; intros acc.
  - cbn. split.
    + intros [= <-]. exists []. split; [constructor|by rewrite app_nil_r].
    + intros (funds & Hall & ->). inversion Hall. by rewrite app_nil_r.
  - cbn [Main.funds_loop mbind result_bind].
    destruct (Main.fund_of_item item) as [e|fund] eqn:Hitem;
      cbn [mbind result_bind].
    + split; [done|]. intros (funds & Hall & _). inversion Hall; congruence.
    + rewrite IH. split.
      * intros (funds & Hall & ->). exists (fund :: funds).
        split; [by constructor|by rewrite <- app_assoc].
      * intros (funds & Hall & ->). inversion Hall as [|? fund' ? funds' Hfund Hrest];
          subst. rewrite Hitem in Hfund. injection Hfund as <-.
        exists funds'. split; [done|by rewrite <- app_assoc].
Qed.

Lemma funds_loop_failure (items : list JSON) (acc : list Fund.t) (e : exn) :
  Main.funds_loop items acc = inl e ↔
  ∃ before item after,
    items = before ++ item :: after
    ∧ Forall is_directory_row before
    ∧ Main.fund_of_item item = inl e.
Proof.
  revert acc. induction items as [|item items IH]; intros acc.
  - cbn. split; [done|]. intros (before & item & after & Heq & _). by destruct before.
  - cbn [Main.funds_loop mbind result_bind].
    destruct (Main.fund_of_item item) as [e'|fund] eqn:Hitem;
      cbn [mbind result_bind].
    + split.
      * intros [= ->]. exists [], item, items. by split; [|split; [constructor|]].
      * intros (before & item' & after & Heq & Hrows & Hfail).
        destruct before as [|row before].
        -- injection Heq as <- _. congruence.
        -- injection Heq as <- _. apply Forall_cons in Hrows as [Hrow _].
           apply fund_of_item_accepts in Hrow as [fund Hfund]. congruence.
    + rewrite IH. split.
      * intros (before & item' & after & -> & Hrows & Hfail).
        exists (item :: before), item', after. split; [done|]. split; [|done].
        constructor; [|done]. apply fund_of_item_accepts. by exists fund.
      * intros (before & item' & after & Heq & Hrows & Hfail).
        destruct before as [|row before].
        -- injection Heq as <- _. congruence.
        -- injection Heq as _ ->. apply Forall_cons in Hrows as [_ Hrows].
           by exists before, item', after.
Qed.

Lemma directory_rows_funds (items : list JSON) :
  Forall is_directory_row items →
  ∃ funds, Forall2 (fun item fund => Main.fund_of_item item = inr fund) items funds.
Proof.
  induction 1 as [|item items Hrow _ IH]; [by exists []|].
  destruct IH as [funds IH].
  apply fund_of_item_accepts in Hrow as [fund Hfund].
  exists (fund :: funds). by constructor.
Qed.

(** X1. When the directory endpoint answers an object whose [data] is a
    list, [fetch_open_end_funds] returns one fund per row, in the order
    of the response, provided every row is an object whose symbol and
    company name are strings or absent; no row is ever skipped. *)
Theorem fetch_open_end_funds_one_fund_per_row
    (s : State) (w : World) (resp : Response)
    (fields : list (str * JSON)) (items : list JSON) :
  http (world s) directory_request = (w, inr resp) →
  status_ok resp →
  json_doc resp = Some (JObject fields) →
  Py.assoc (u "data") fields = Some (JArray items) →
  Forall is_directory_row items →
  ∃ funds,
    (Main.fetch_open_end_funds s).2 = inr funds
    ∧ length funds = length items
    ∧ Forall2 (fun item fund => Main.fund_of_item item = inr fund) items funds.
Proof.
  intros Hget Hok Hjson Hdata Hrows.
  destruct (directory_rows_funds items Hrows) as [funds Hfunds].
  exists funds. split; [|split; [|done]].
  2: { symmetry. by eapply Forall2_length. }
  unfold Main.fetch_open_end_funds, Main.requests_get, mbind, M_bind.
  fold directory_request. rewrite (send_answer _ _ _ _ Hget).
  rewrite (raise_for_status_ok _ _ Hok). unfold resp_json. rewrite Hjson.
  unfold mret, M_ret, lift, Py.get. cbv beta iota. rewrite Hdata. simpl.
  apply funds_loop_success. by exists funds.
Qed.

(** X2. A single row that cannot be read makes the whole directory
    fetch fail, with the error of the first such row: [AttributeError]
    for a row that is not an object, [TypeError] for a symbol or company
    name that is not a string.  No partial list is returned. *)
Theorem fetch_open_end_funds_bad_row
    (s : State) (w : World) (resp : Response)
    (fields : list (str * JSON)) (before after : list JSON) (item : JSON) :
  http (world s) directory_request = (w, inr resp) →
  status_ok resp →
  json_doc resp = Some (JObject fields) →
  Py.assoc (u "data") fields = Some (JArray (before ++ item :: after)) →
  Forall is_directory_row before →
  ¬ is_directory_row item →
  ∃ e, (Main.fetch_open_end_funds s).2 = inl e
       ∧ Main.fund_of_item item = inl e
       ∧ ((∃ msg, e = AttributeError msg) ∨ (∃ msg, e = TypeError msg))
       ∧ ((∃ row_fields, item = JObject row_fields) ∨ ∃ msg, e = AttributeError msg).
Proof.
  intros Hget Hok Hjson Hdata Hrows Hbad.
  destruct (Main.fund_of_item item) as [e|fund] eqn:Hitem.
  2: { destruct Hbad. apply fund_of_item_accepts. by exists fund. }
  exists e. split; [|split; [done|]].
  - unfold Main.fetch_open_end_funds, Main.requests_get, mbind, M_bind.
    fold directory_request. rewrite (send_answer _ _ _ _ Hget).
    rewrite (raise_for_status_ok _ _ Hok). unfold resp_json. rewrite Hjson.
    unfold mret, M_ret, lift, Py.get. cbv beta iota. rewrite Hdata. simpl.
    apply funds_loop_failure. by exists before, item, after.
  - revert Hitem. unfold Main.fund_of_item, Py.get.
    destruct item as [| | | | |l|row_fields]; cbn [mbind result_bind];
      try (intros [= <-]; split; [left|right]; by eexists).
    destruct (default (JString []) (Py.assoc (u "symbol") row_fields));
      cbn [Py.as_str mbind result_bind];
      try (intros [= <-]; split; [right; by eexists|left; by eexists]).
    destruct (default (JString []) (Py.assoc (u "companyname") row_fields));
      cbn [Py.as_str mbind result_bind];
      try (intros [= <-]; split; [right; by eexists|left; by eexists]).
    done.
Qed.

End DirectoryFacts.

Section FeedFacts.
Context `{Env}.


Lemma not_char_Forall (c : N) (g : str) :
  Forall (fun d => Re.not_char c d = true) g → c ∉ g.
Proof.
  intros Hall Hin. rewrite Forall_forall in Hall. specialize (Hall c Hin).
  unfold Re.not_char in Hall. by rewrite N.eqb_refl in Hall.
Qed.

Lemma announcement_of_item_well_formed (item : JSON) (ann : Announcement.t) :
  Main.announcement_of_item item = inr (Some ann) → well_formed_announcement ann.
Proof.
  unfold Main.announcement_of_item, Py.get.
  destruct item as [| | | | |l|fields]; try done.
  cbn [mbind result_bind].
  destruct (default (JString []) (Py.assoc (u "title") fields))
    as [| | | |title_text| |]; try done.
  cbn [Py.as_str mbind result_bind].
  destruct (Re.search_href title_text) as [url|] eqn:Hurl; [|done].
  cbn [mbind result_bind mret result_ret]. intros [= <-].
  apply search_sound in Hurl as (a & b & _ & Hne & Hall).
  split; [done|]. split; [by apply not_char_Forall|]. cbn.
  destruct (Re.search_anchor_text title_text) as [text|] eqn:Htext; cbn.
  - apply search_sound in Htext as (a' & b' & _ & _ & Hall').
    by apply not_char_Forall.
  - by intros ?%elem_of_nil.
Qed.

Lemma announcements_loop_well_formed
    (items : list JSON) (acc res : list Announcement.t) :
  Main.announcements_loop items acc = inr res →
  Forall well_formed_announcement acc → Forall well_formed_announcement res.
Proof.
  revert acc. induction items as [|item items IH]; intros acc; cbn.
  - by intros [= <-].
  - destruct (Main.announcement_of_item item) as [e|[ann|]] eqn:Hitem;
      cbn [mbind result_bind]; [done| |apply IH].
    intros Hloop Hacc. apply (IH _ Hloop).
    apply Forall_app. split; [done|]. constructor; [|done].
    by apply announcement_of_item_well_formed with item.
Qed.

Lemma fetch_fund_announcements_inv
    (symbol fund_name : str) (s : State) (announcements : list Announcement.t) :
  (Main.fetch_fund_announcements symbol fund_name s).2 = inr announcements →
  ∃ items, Main.announcements_loop items [] = inr announcements.
Proof.
  unfold Main.fetch_fund_announcements, mbind, M_bind, send.
  destruct (http (world s) _) as [w [e|resp]]; [done|].
  cbn [world with_event with_world].
  destruct (http w _) as [w2 [e|r2]]; [done|].
  unfold raise_for_status. destruct (_ && _); [done|]. cbn.
  unfold resp_json. destruct (json_doc r2) as [doc|]; [|done]. cbn.
  destruct (Py.get doc _ _) as [e|rows]; [done|]. cbn.
  destruct (Py.iter rows) as [e|items]; [done|]. cbn.
  intros Hloop. by exists items.
Qed.

(** X4. Whatever the server answers, every announcement that
    [fetch_fund_announcements] returns has a URL that is not empty and
    holds no double quote, and a title without [<]. *)
Theorem fetch_fund_announcements_well_formed
    (symbol fund_name : str) (s : State) (announcements : list Announcement.t) :
  (Main.fetch_fund_announcements symbol fund_name s).2 = inr announcements →
  Forall well_formed_announcement announcements.
Proof.
  intros [items Hloop]%fetch_fund_announcements_inv.
  by apply (announcements_loop_well_formed items [] _ Hloop).
Qed.

End FeedFacts.

(** ** Paths and extensions *)

Lemma rfind_None (c : N) (s : str) : rfind c s = None ↔ c ∉ s.
Proof.
  induction s as [|d s IH]; simpl.
  - split; [by intros _ ?%elem_of_nil|done].
  - destruct (rfind c s) as [i|].
    + split; [done|]. intros Hnot. destruct IH as [_ IH].
      discriminate IH. intros Hin. apply Hnot. by right.
    + destruct (N.eqb_spec d c) as [->|Hne].
      * split; [done|]. intros Hnot. destruct Hnot. left.
      * split; [|done]. intros _ [->|Hin]%elem_of_cons; [done|].
        by apply IH in Hin.
Qed.

Lemma rfind_Some (c : N) (s : str) (i : nat) :
  rfind c s = Some i ↔ ∃ a b, s = a ++ c :: b ∧ (c ∉ b) ∧ i = length a.
Proof.
  revert i. induction s as [|d s IH]; intros i; simpl.
  - split; [done|]. intros (a & b & Heq & _). by destruct a.
  - destruct (rfind c s) as [j|] eqn:Hs.
    + destruct (proj1 (IH j) eq_refl) as (a & b & -> & Hb & ->). split.
      * intros [= <-]. by exists (d :: a), b.
      * intros (a' & b' & Heq & Hb' & ->). f_equal.
        destruct a' as [|d' a'].
        -- injection Heq as -> <-. destruct Hb'.
           apply elem_of_app. right. left.
        -- injection Heq as _ Heq. simpl. f_equal.
           assert (Some (length a) = Some (length a')) as Hlen.
           { apply IH. by exists a', b'. }
           by injection Hlen.
    + apply rfind_None in Hs. destruct (N.eqb_spec d c) as [->|Hne].
      * split.
        -- intros [= <-]. by exists [], s.
        -- intros (a & b & Heq & Hb & ->). destruct a as [|d' a]; [done|].
           injection Heq as _ ->. destruct Hs. apply elem_of_app. right. left.
      * split; [done|]. intros (a & b & Heq & Hb & ->).
        destruct a as [|d' a]; [by injection Heq|].
        injection Heq as _ ->. destruct Hs. apply elem_of_app. right. left.
Qed.

Lemma split_no_sep (sep : N) (s : str) : sep ∉ s → split sep s = [s].
Proof.
  induction s as [|c s IH]; simpl; [done|]. intros Hnot.
  destruct (N.eqb_spec c sep) as [->|Hne]; [destruct Hnot; left|].
  rewrite IH; [done|]. intros Hin. apply Hnot. by right.
Qed.

Lemma split_app_sep (sep : N) (a t : str) :
  split sep (a ++ sep :: t) = split sep a ++ split sep t.
Proof.
  induction a as [|c a IH]; simpl.
  - by rewrite N.eqb_refl.
  - destruct (c =? sep); [by rewrite IH|]. rewrite IH.
    pose proof (split_not_nil sep a). by destruct (split sep a).
Qed.

Lemma split_components (sep : N) (s : str) :
  Forall (fun piece => sep ∉ piece) (split sep s).
Proof.
  induction s as [|c s IH]; simpl.
  - constructor; [by intros ?%elem_of_nil|constructor].
  - destruct (N.eqb_spec c sep) as [->|Hne].
    + constructor; [by intros ?%elem_of_nil|done].
    + destruct (split sep s) as [|w ws].
      { constructor; [|constructor].
        intros [->|Hin]%elem_of_cons; [done|by apply elem_of_nil in Hin]. }
      apply Forall_cons in IH as [Hw Hws]. constructor; [|done].
      intros [->|Hin]%elem_of_cons; done.
Qed.

(** Every string ends with a last component free of the separator. *)
Lemma last_component (sep : N) (s : str) :
  ∃ t, (sep ∉ t) ∧ (s = t ∨ ∃ a, s = a ++ sep :: t).
Proof.
  induction s as [|c s (t & Ht & IH)].
  - exists []. split; [by intros ?%elem_of_nil|by left].
  - destruct IH as [->|[a ->]].
    + destruct (N.eqb_spec c sep) as [->|Hne].
      * exists t. split; [done|]. right. by exists [].
      * exists (c :: t). split; [|by left].
        intros [->|Hin]%elem_of_cons; done.
    + exists t. split; [done|]. right. by exists (c :: a).
Qed.

Lemma parse_name_last (s t : str) :
  47 ∉ t → t ≠ [] → t ≠ u "." →
  (s = t ∨ ∃ a, s = a ++ 47 :: t) →
  PathLib.name (PathLib.parse s) = t.
Proof.
  intros Ht Hne Hdot Hs. unfold PathLib.name, PathLib.parse. cbn [snd].
  assert (∃ pieces, split 47 s = pieces ++ [t]) as [pieces ->].
  { destruct Hs as [->|[a ->]].
    - exists []. by rewrite split_no_sep.
    - exists (split 47 a). by rewrite split_app_sep, (split_no_sep _ t). }
  rewrite List.filter_app. cbn [List.filter]. unfold str_eqb.
  rewrite !bool_decide_eq_false_2 by done. cbn. apply last_last.
Qed.

Lemma parse_name_no_slash (s : str) : 47 ∉ PathLib.name (PathLib.parse s).
Proof.
  unfold PathLib.name, PathLib.parse. cbn [snd].
  pose proof (split_components 47 s) as Hall.
  assert (Forall (fun piece => 47 ∉ piece)
            (List.filter (fun c => negb (str_eqb c []) && negb (str_eqb c (u ".")))
                         (split 47 s))) as Hfiltered.
  { rewrite Forall_forall in *. intros piece [Hin _]%elem_of_List_filter. by apply Hall. }
  induction Hfiltered as [|piece pieces Hpiece _ IH]; [by intros ?%elem_of_nil|].
  destruct pieces as [|piece' pieces]; [done|]. apply IH.
Qed.

Ltac not_in_literal :=
  let Hin := fresh "Hin" in
  intros Hin;
  repeat (apply elem_of_cons in Hin as [Hin|Hin]; [discriminate Hin|]);
  by apply elem_of_nil in Hin.

Lemma jpg_dotted : dotted_extension (u ".jpg").
Proof. exists (u "jpg"). repeat split; [done|not_in_literal..]. Qed.

(** The extension given to a stored image always is a dotted extension. *)
Lemma extension_of_dotted (url : str) : dotted_extension (Main.extension_of url).
Proof.
  unfold Main.extension_of, PathLib.suffix.
  pose proof (parse_name_no_slash url) as Hname.
  destruct (rfind 46 (PathLib.name (PathLib.parse url))) as [i|] eqn:Hfind.
  2: { apply jpg_dotted. }
  apply rfind_Some in Hfind as (a & b & Heq & Hb & ->). rewrite Heq in *.
  destruct (_ && _) eqn:Hbounds.
  2: { apply jpg_dotted. }
  rewrite drop_app_length. exists b. split; [done|].
  apply andb_true_iff in Hbounds as [_ Hlt%Nat.ltb_lt].
  rewrite length_app in Hlt. cbn in Hlt.
  split; [destruct b; [cbn in Hlt; lia|done]|]. split; [done|].
  intros Hin. apply Hname, elem_of_app. right. by right.
Qed.

Lemma accepted_extensions_dotted (ext : str) :
  ext ∈ accepted_extensions → dotted_extension ext.
Proof.
  unfold accepted_extensions.
  intros [->|[->|[->|Hin]%elem_of_cons]%elem_of_cons]%elem_of_cons.
  - apply jpg_dotted.
  - exists (u "jpeg"). repeat split; [done|not_in_literal..].
  - exists (u "png"). repeat split; [done|not_in_literal..].
  - by apply elem_of_nil in Hin.
Qed.

(** The extension of a URL whose last component is [stem ++ "." ++ e]:
    the dotted extension, unless the stem is empty. *)
Lemma extension_of_file_name (s stem e : str) :
  47 ∉ stem → e ≠ [] → 46 ∉ e → 47 ∉ e →
  (s = stem ++ 46 :: e ∨ ∃ a, s = a ++ 47 :: stem ++ 46 :: e) →
  Main.extension_of s = match stem with [] => u ".jpg" | _ :: _ => 46 :: e end.
Proof.
  intros Hstem Hne Hdot Hslash Hs.
  unfold Main.extension_of, PathLib.suffix.
  rewrite (parse_name_last s (stem ++ 46 :: e)); [| | | |done].
  - rewrite (proj2 (rfind_Some 46 (stem ++ 46 :: e) (length stem)))
      by (by exists stem, e).
    rewrite length_app. cbn [length]. rewrite drop_app_length.
    destruct stem as [|c stem]; [done|]. cbn [length].
    replace (0 <? S (length stem))%nat with true by (symmetry; by apply Nat.ltb_lt; lia).
    replace (S (length stem) <? S (length stem) + S (length e) - 1)%nat with true; [done|].
    symmetry. apply Nat.ltb_lt. destruct e; [done|]. cbn [length]. lia.
  - intros [Hin|[[=]|Hin]%elem_of_cons]%elem_of_app; done.
  - by destruct stem.
  - destruct stem as [|c [|c' stem]]; [by destruct e|by destruct e|done].
Qed.

Lemma suffix_of_last_component (ext t s : str) :
  47 ∉ ext → ext ≠ [] → 47 ∉ t →
  (s = t ∨ ∃ a, s = a ++ 47 :: t) → ext `suffix_of` s → ext `suffix_of` t.
Proof.
  intros Hext Hne Ht [->|[a ->]] [x Hx]; [by exists x|].
  apply app_eq_app in Hx as [l [[-> Hl]|[-> Hl]]].
  - exfalso. apply Hext. rewrite Hl. apply elem_of_app. right. left.
  - destruct l as [|c l].
    + exfalso. apply Hext. cbn in Hl. rewrite <- Hl. left.
    + injection Hl as _ ->. by exists l.
Qed.

Lemma extension_of_accepted (src ext : str) :
  ext ∈ accepted_extensions → ext `suffix_of` src →
  Main.extension_of src ∈ accepted_extensions.
Proof.
  intros Hext Hsuffix.
  destruct (accepted_extensions_dotted ext Hext) as (e & -> & Hne & Hdot & Hslash).
  assert (47 ∉ 46 :: e) as Hslash'.
  { intros [[=]|Hin]%elem_of_cons. done. }
  destruct (last_component 47 src) as (t & Ht & Hsrc).
  destruct (suffix_of_last_component (46 :: e) t src Hslash' ltac:(done) Ht
              Hsrc Hsuffix) as [stem ->].
  assert (47 ∉ stem) as Hstem.
  { intros Hin. apply Ht, elem_of_app. by left. }
  rewrite (extension_of_file_name src stem e Hstem Hne Hdot Hslash Hsrc).
  destruct stem; [left|done].
Qed.

Section ImageFacts.
Context `{Env}.

(** X5. For an image URL that ends with one of the accepted extensions,
    the extension under which [download_image] stores it is again an
    accepted one: the URL's own extension when the file name has a stem
    before it, and [.jpg] when the file name is the bare extension. *)
Theorem image_extension_kept (src ext : str) :
  ext ∈ accepted_extensions → ext `suffix_of` src →
  Main.extension_of src ∈ accepted_extensions
  ∧ (∀ dir stem, src = dir ++ stem ++ ext → stem ≠ [] → 47 ∉ stem →
                 dir = [] ∨ (∃ d, dir = d ++ [47]) →
                 Main.extension_of src = ext)
  ∧ (∀ dir, src = dir ++ ext → dir = [] ∨ (∃ d, dir = d ++ [47]) →
            Main.extension_of src = u ".jpg").
Proof.
  intros Hext Hsuffix.
  destruct (accepted_extensions_dotted ext Hext) as (e & -> & Hne & Hdot & Hslash).
  assert (47 ∉ 46 :: e) as Hslash'.
  { intros [[=]|Hin]%elem_of_cons. done. }
  split; [|split].
  - by apply extension_of_accepted with (46 :: e).
  - intros dir stem -> Hstem Hno Hdir.
    rewrite (extension_of_file_name _ stem e Hno Hne Hdot Hslash).
    + by destruct stem.
    + destruct Hdir as [->|[d ->]]; [by left|]. right. exists d.
      by rewrite <- app_assoc.
  - intros dir -> Hdir.
    rewrite (extension_of_file_name _ [] e ltac:(by intros ?%elem_of_nil)
               Hne Hdot Hslash); [done|].
    destruct Hdir as [->|[d ->]]; [by left|]. right. exists d.
    by rewrite <- app_assoc.
Qed.

Lemma file_name_parse (file_name : str) :
  47 ∉ file_name → file_name ≠ [] → file_name ≠ u "." →
  PathLib.parse file_name = (false, [file_name]).
Proof.
  intros Hslash Hne Hdot. unfold PathLib.parse. f_equal.
  - destruct file_name as [|c file_name]; [done|].
    change (u "/") with [47]. cbn [fst startswith].
    destruct (N.eqb_spec 47 c) as [<-|?]; [|done]. destruct Hslash. left.
  - rewrite split_no_sep by done. cbn. unfold str_eqb.
    by rewrite !bool_decide_eq_false_2.
Qed.

Lemma IMAGES_DIR_parts :
  Main.IMAGES_DIR = (script_dir.1, script_dir.2 ++ [u "images"]).
Proof.
  unfold Main.IMAGES_DIR, PathLib.join.
  by rewrite file_name_parse; [|not_in_literal|done|done].
Qed.

(** X6. For a symbol without slash, the artifact of a fund is the file
    [symbol + extension] directly inside the images directory, so two
    such symbols never share an artifact for the same URL; for a symbol
    that starts with a slash the path is absolute and the images
    directory plays no part. *)
Theorem image_path_keyed_by_symbol (url symbol : str) :
  (47 ∉ symbol →
   Main.image_path_of url symbol
   = (script_dir.1, script_dir.2 ++ [u "images"; symbol ++ Main.extension_of url])
   ∧ ∀ symbol', 47 ∉ symbol' →
                Main.image_path_of url symbol' = Main.image_path_of url symbol →
                symbol' = symbol)
  ∧ (∀ rest, symbol = 47 :: rest →
             Main.image_path_of url symbol
             = PathLib.parse (symbol ++ Main.extension_of url)
             ∧ (Main.image_path_of url symbol).1 = true).
Proof.
  assert (∀ sym, 47 ∉ sym →
                 Main.image_path_of url sym
                 = (script_dir.1,
                    script_dir.2 ++ [u "images"; sym ++ Main.extension_of url]))
    as Hpath.
  { intros sym Hsym. unfold Main.image_path_of, PathLib.join.
    destruct (extension_of_dotted url) as (e & Hext & Hne & Hdot & Hslash).
    rewrite file_name_parse.
    - rewrite IMAGES_DIR_parts. cbn [fst snd]. by rewrite <- app_assoc.
    - rewrite Hext. intros [Hin|[[=]|Hin]%elem_of_cons]%elem_of_app; done.
    - rewrite Hext. by destruct sym.
    - rewrite Hext. destruct sym as [|c [|c' sym]]; [by destruct e|by destruct e|done]. }
  split.
  - intros Hsymbol. split; [by apply Hpath|].
    intros symbol' Hsymbol'. rewrite !Hpath by done.
    intros [= Heq%app_inv_head]. injection Heq as Heq. by apply app_inv_tail in Heq.
  - intros rest ->. unfold Main.image_path_of, PathLib.join. by cbn.
Qed.




End ImageFacts.

(** ** Pacing *)

Section PacingFacts.
Context `{Env}.

Lemma turn_single (first : Request) : turn_requests first [first].
Proof. exists []. split; [done|cbn; lia]. Qed.

Lemma turn_pair (first second : Request) : turn_requests first [first; second].
Proof. exists [second]. split; [done|cbn; lia]. Qed.

Lemma fetch_fund_announcements_trace (symbol fund_name : str) (s : State) :
  ∃ block, turn_requests (Main.profile_request symbol) block
           ∧ trace (Main.fetch_fund_announcements symbol fund_name s).1
             = trace s ++ map Sent block.
Proof.
  unfold Main.fetch_fund_announcements, mbind, M_bind, send.
  destruct (http (world s) _) as [w [e|resp]].
  { exists [Main.profile_request symbol]. split; [apply turn_single|reflexivity]. }
  cbn [world with_event with_world].
  match goal with
  | |- context [http w ?post] =>
      exists [Main.profile_request symbol; post];
      split; [apply turn_pair|];
      destruct (http w post) as [w2 [e|r2]]; cbn; [by rewrite <- app_assoc|]
  end.
  unfold raise_for_status. destruct (_ && _); cbn; [by rewrite <- app_assoc|].
  unfold resp_json. destruct (json_doc r2) as [doc|]; cbn; [|by rewrite <- app_assoc].
  destruct (Py.get doc _ _) as [e|rows]; cbn; [by rewrite <- app_assoc|].
  destruct (Py.iter rows) as [e|items]; cbn; [by rewrite <- app_assoc|].
  destruct (Main.announcements_loop items []); cbn; by rewrite <- app_assoc.
Qed.

Lemma extract_image_url_trace (announcement_url : str) (s : State) :
  trace (Main.extract_image_url announcement_url s).1
  = trace s ++ [Sent (page_request announcement_url)].
Proof.
  unfold Main.extract_image_url, Main.requests_get, mbind, M_bind, send.
  fold (page_request announcement_url).
  destruct (http (world s) _) as [w [e|resp]]; [done|].
  unfold raise_for_status. by destruct (_ && _).
Qed.

Lemma download_image_trace (url symbol : str) (s : State) :
  trace (Main.download_image url symbol s).1 = trace s ++ [Sent (page_request url)].
Proof.
  unfold Main.download_image, Main.requests_get, mkdir_exist_ok, mbind, M_bind.
  unfold mret at 1, M_ret at 1. cbv beta iota. unfold send.
  fold (page_request url).
  destruct (http (world s) _) as [w [e|resp]]; [done|].
  unfold raise_for_status. by destruct (_ && _).
Qed.

Lemma resolve_fund_turn (fund : Fund.t) (acc : list NavImage.t) (s : State) :
  ∃ block, turn_requests (Main.profile_request (Fund.symbol fund)) block
           ∧ trace (try_except (Main.resolve_fund fund acc) (Main.log_error acc) s).1
             = trace s ++ map Sent block.
Proof.
  destruct (fetch_fund_announcements_trace (Fund.symbol fund) (Fund.name fund) s)
    as (block & Hblock & Htrace).
  exists block. split; [done|]. rewrite <- Htrace.
  unfold try_except, Main.resolve_fund, mbind, M_bind.
  destruct (Main.fetch_fund_announcements _ _ s) as [s1 [e|announcements]]; [done|].
  by destruct (Main.find_latest_nav_announcement announcements).
Qed.

Lemma acquire_item_turn (item : NavImage.t) (acc : list Downloaded.t) (s : State) :
  ∃ block,
    turn_requests (page_request (Announcement.url (NavImage.announcement item))) block
    ∧ trace (try_except (Main.acquire_item item acc) (Main.log_error acc) s).1
      = trace s ++ map Sent block.
Proof.
  pose proof (extract_image_url_trace
                (Announcement.url (NavImage.announcement item)) s) as Hlocate.
  unfold try_except, Main.acquire_item, mbind, M_bind.
  destruct (Main.extract_image_url _ s) as [s1 [e|img_url]].
  { eexists [_]. split; [apply turn_single|done]. }
  destruct img_url as [[|c img_url]|].
  - eexists [_]. split; [apply turn_single|done].
  - pose proof (download_image_trace (c :: img_url) (NavImage.symbol item) s1)
      as Hdownload.
    exists [page_request (Announcement.url (NavImage.announcement item));
            page_request (c :: img_url)].
    split; [apply turn_pair|].
    destruct (Main.download_image _ _ s1) as [s2 [e|filepath]]; cbn in *.
    + change (trace (Main.log_error acc e s2).1) with (trace s2).
      rewrite Hdownload, Hlocate. by rewrite <- app_assoc.
    + rewrite Hdownload, Hlocate. by rewrite <- app_assoc.
  - eexists [_]. split; [apply turn_single|done].
Qed.

(** X8. The loop over the funds pauses exactly once after each fund,
    whether the fund was resolved, had no announcement or failed: its
    events are, fund by fund, the request for the fund's profile page,
    at most one more request, then a pause. *)
Theorem nav_images_loop_paced
    (funds : list Fund.t) (nav_images : list NavImage.t) (s : State) :
  ∃ blocks,
    Forall2 (fun fund block =>
               turn_requests (Main.profile_request (Fund.symbol fund)) block)
            funds blocks
    ∧ trace (Main.nav_images_loop funds nav_images s).1 = trace s ++ paced blocks.
Proof.
  revert nav_images s. induction funds as [|fund rest IH]; intros acc s.
  - exists []. split; [constructor|]. cbn. by rewrite app_nil_r.
  - rewrite nav_images_loop_cons.
    destruct (resolve_fund_turn fund acc (Main.announce (Fund.symbol fund) s).1)
      as (block & Hblock & Htrace).
    destruct (guarded_turn_total (Main.resolve_fund fund acc) acc
                (Main.announce (Fund.symbol fund) s).1) as (s1 & later & Hturn).
    { pose proof (resolve_fund_result fund acc (Main.announce (Fund.symbol fund) s).1).
      by destruct (Main.resolve_fund _ _ _) as [? [?|?]]. }
    rewrite Hturn in Htrace |- *. cbn [fst] in Htrace.
    destruct (IH (acc ++ later) (sleep s1).1) as (blocks & Hblocks & Hrest).
    exists (block :: blocks). split; [by constructor|].
    rewrite Hrest. cbn [sleep fst trace with_event]. rewrite Htrace.
    unfold paced. cbn [map concat]. by rewrite <- !app_assoc.
Qed.

(** X9. The loop over the resolved funds pauses exactly once after each
    of them as well: its events are, entry by entry, the request for the
    announcement page, at most one more request (the image), then a
    pause. *)
Theorem downloaded_loop_paced
    (nav_images : list NavImage.t) (downloaded : list Downloaded.t) (s : State) :
  ∃ blocks,
    Forall2 (fun item block =>
               turn_requests
                 (page_request (Announcement.url (NavImage.announcement item))) block)
            nav_images blocks
    ∧ trace (Main.downloaded_loop nav_images downloaded s).1 = trace s ++ paced blocks.
Proof.
  revert downloaded s. induction nav_images as [|item rest IH]; intros acc s.
  - exists []. split; [constructor|]. cbn. by rewrite app_nil_r.
  - rewrite downloaded_loop_cons.
    destruct (acquire_item_turn item acc (Main.announce (NavImage.symbol item) s).1)
      as (block & Hblock & Htrace).
    destruct (guarded_turn_total (Main.acquire_item item acc) acc
                (Main.announce (NavImage.symbol item) s).1) as (s1 & later & Hturn).
    { pose proof (acquire_item_result item acc (Main.announce (NavImage.symbol item) s).1).
      by destruct (Main.acquire_item _ _ _) as [? [?|?]]. }
    rewrite Hturn in Htrace |- *. cbn [fst] in Htrace.
    destruct (IH (acc ++ later) (sleep s1).1) as (blocks & Hblocks & Hrest).
    exists (block :: blocks). split; [by constructor|].
    rewrite Hrest. cbn [sleep fst trace with_event]. rewrite Htrace.
    unfold paced. cbn [map concat]. by rewrite <- !app_assoc.
Qed.

End PacingFacts.

(** ** What the two loops record *)

Section RecordFacts.
Context `{Env}.

Lemma find_latest_nav_announcement_Some
    (announcements : list Announcement.t) (ann : Announcement.t) :
  Main.find_latest_nav_announcement announcements = Some ann →
  ann ∈ announcements ∧ MatchesDisclosure (Announcement.title ann).
Proof.
  rewrite find_latest_nav_announcement_find.
  intros (pre & post & -> & Hann & _)%find_first. split.
  - apply elem_of_app. right. left.
  - by apply is_nav_title_Matches.
Qed.

Lemma resolve_fund_turn_records
    (fund : Fund.t) (acc : list NavImage.t) (s : State) :
  ∃ s1 later chosen,
    try_except (Main.resolve_fund fund acc) (Main.log_error acc) s
    = (s1, inr (acc ++ later))
    ∧ chosen `sublist_of` [fund]
    ∧ Forall2 resolved_from chosen later.
Proof.
  unfold try_except, Main.resolve_fund, mbind, M_bind.
  pose proof (fetch_fund_announcements_inv (Fund.symbol fund) (Fund.name fund) s)
    as Hinv.
  destruct (Main.fetch_fund_announcements _ _ s) as [s1 [e|announcements]].
  { eexists _, [], []. rewrite app_nil_r.
    split; [reflexivity|]. split; [apply sublist_nil_l|constructor]. }
  destruct (Main.find_latest_nav_announcement announcements) as [ann|] eqn:Hfind.
  - apply find_latest_nav_announcement_Some in Hfind as [Hin Hmatch].
    destruct (Hinv announcements eq_refl) as [items Hloop].
    pose proof (announcements_loop_well_formed items [] _ Hloop (List.Forall_nil _)) as Hall.
    rewrite Forall_forall in Hall.
    eexists _, [_], [fund]. split; [reflexivity|]. split; [done|].
    constructor; [|constructor].
    split; [done|]. split; [done|]. split; [done|]. by apply Hall.
  - eexists _, [], []. rewrite app_nil_r.
    split; [reflexivity|]. split; [apply sublist_nil_l|constructor].
Qed.

(** X10. The entries the first loop records stem, in order and at most
    one each, from funds of the list: an entry carries the symbol and
    name of its fund and an announcement of that fund's feed whose title
    matches the disclosure keywords and whose URL is not empty. *)
Theorem nav_images_loop_records
    (funds : list Fund.t) (nav_images : list NavImage.t) (s : State) :
  ∃ s' later chosen,
    Main.nav_images_loop funds nav_images s = (s', inr (nav_images ++ later))
    ∧ chosen `sublist_of` funds
    ∧ Forall2 resolved_from chosen later.
Proof.
  revert nav_images s. induction funds as [|fund rest IH]; intros acc s.
  - exists s, [], []. rewrite app_nil_r. split; [done|]. split; [done|constructor].
  - rewrite nav_images_loop_cons.
    destruct (resolve_fund_turn_records fund acc (Main.announce (Fund.symbol fund) s).1)
      as (s1 & later & chosen & -> & Hchosen & Hlater).
    destruct (IH (acc ++ later) (sleep s1).1)
      as (s2 & later2 & chosen2 & -> & Hchosen2 & Hlater2).
    exists s2, (later ++ later2), (chosen ++ chosen2).
    split; [by rewrite app_assoc|]. split; [|by apply Forall2_app].
    by apply (sublist_app chosen [fund] chosen2 rest).
Qed.








End RecordFacts.

(** * Further properties of [extract_nav.py] *)

Lemma lstrip_fixed (s : str) :
  match s with [] => True | c :: _ => isspace c = false end → lstrip s = s.
Proof. destruct s as [|c s]; [done|]. simpl. by intros ->. Qed.

Lemma lstrip_head (s : str) :
  match lstrip s with [] => True | c :: _ => isspace c = false end.
Proof.
  induction s as [|c s IH]; simpl; [done|].
  destruct (isspace c) eqn:Hc; [done|]. exact Hc.
Qed.

Lemma lstrip_idempotent (s : str) : lstrip (lstrip s) = lstrip s.
Proof. apply lstrip_fixed, lstrip_head. Qed.

Lemma rstrip_prefix (s : str) : rstrip s `prefix_of` s.
Proof.
  unfold rstrip. destruct (lstrip_suffix (rev s)) as [a Ha].
  exists (rev a). rewrite <- rev_app_distr, <- Ha. by rewrite rev_involutive.
Qed.

Lemma strip_idempotent (s : str) : strip (strip s) = strip s.
Proof.
  unfold strip.
  assert (lstrip (rstrip (lstrip s)) = rstrip (lstrip s)) as ->.
  { apply lstrip_fixed. pose proof (lstrip_head s) as Hhead.
    destruct (rstrip_prefix (lstrip s)) as [b Hb].
    destruct (rstrip (lstrip s)) as [|c r]; [done|].
    rewrite Hb in Hhead. exact Hhead. }
  unfold rstrip. by rewrite rev_involutive, lstrip_idempotent.
Qed.

Lemma Substring_elem (a b : str) (c : N) : Substring a b → c ∈ a → c ∈ b.
Proof.
  intros (x & y & ->) Hin. apply elem_of_app. right. apply elem_of_app. by left.
Qed.

Lemma split_join (sep : N) (pieces : list str) :
  pieces ≠ [] → Forall (fun piece => sep ∉ piece) pieces →
  split sep (PyStr.join [sep] pieces) = pieces.
Proof.
  intros Hne Hall. induction Hall as [|p ps Hp Hps IH]; [done|].
  destruct ps as [|q ps]; [by apply split_no_sep|].
  change (PyStr.join [sep] (p :: q :: ps))
    with (p ++ sep :: PyStr.join [sep] (q :: ps)).
  by rewrite split_app_sep, IH, split_no_sep.
Qed.

Lemma trimmed_lines_clean (text : str) :
  Forall (fun line => line ≠ [] ∧ strip line = line ∧ NL ∉ line)
         (spec_trimmed_lines text).
Proof.
  apply Forall_forall. intros line (Hne & l & Hl & ->)%elem_of_trimmed_lines.
  split; [done|]. split; [apply strip_idempotent|].
  intros Hin. apply (Substring_elem _ l) in Hin; [|apply strip_Substring].
  pose proof (split_components NL text) as Hall. rewrite Forall_forall in Hall.
  by apply (Hall l).
Qed.

Lemma trimmed_lines_of_clean (lines : list str) :
  Forall (fun line => line ≠ [] ∧ strip line = line ∧ NL ∉ line) lines →
  spec_trimmed_lines (PyStr.join [NL] lines) = lines.
Proof.
  intros Hclean. unfold spec_trimmed_lines.
  destruct lines as [|l lines]; [done|].
  rewrite split_join; [|done|].
  2: { eapply Forall_impl; [exact Hclean|]. by intros line (_ & _ & ?). }
  induction Hclean as [|line rest (Hne & Hfixed & _) _ IH]; [done|].
  cbn [map List.filter]. rewrite Hfixed. unfold str_eqb at 1.
  rewrite bool_decide_eq_false_2 by done. cbn [negb]. by rewrite IH.
Qed.

(** X12. Every line [parse_data] emits is not empty, has no white space
    at either end and holds no newline; parsing the lines joined by
    newlines again gives the same record, keyword hits included. *)
Theorem parse_data_idempotent (text : str) :
  Forall (fun line => line ≠ [] ∧ strip line = line ∧ NL ∉ line)
         (ExtractNav.raw_lines (ExtractNav.parse_data text))
  ∧ ExtractNav.parse_data
      (PyStr.join [NL] (ExtractNav.raw_lines (ExtractNav.parse_data text)))
    = ExtractNav.parse_data text.
Proof.
  rewrite raw_lines_spec. split; [apply trimmed_lines_clean|].
  pose proof (raw_lines_spec (PyStr.join [NL] (spec_trimmed_lines text))) as Hlines.
  rewrite (trimmed_lines_of_clean _ (trimmed_lines_clean text)) in Hlines.
  pose proof (raw_lines_spec text) as Hlines'.
  assert (ExtractNav.found_keywords
            (ExtractNav.parse_data (PyStr.join [NL] (spec_trimmed_lines text)))
          = ExtractNav.found_keywords (ExtractNav.parse_data text)) as Hhits.
  { cbn [ExtractNav.parse_data ExtractNav.found_keywords].
    apply filter_ext_in. intros kw Hin%list_elem_of_In.
    pose proof keywords_solid as Hall. rewrite Forall_forall in Hall.
    pose proof (Substring_trimmed_lines kw text (Hall kw Hin)) as Hiff.
    rewrite <- !contains_Substring in Hiff.
    destruct (contains kw text), (contains kw _); try done.
    - by destruct Hiff as [-> _].
    - by destruct Hiff as [_ ->]. }
  destruct (ExtractNav.parse_data (PyStr.join _ _)), (ExtractNav.parse_data text).
  cbn in *. congruence.
Qed.

Section CliFacts.
Context `{Env}.



(** X14. Source problems are ordinary errors of the CLI.  A source that
    neither starts with [http] nor exists on disk ends the run with
    status 1 and the document of a [FileNotFoundError] naming the source,
    without any request; an existing file that OpenCV cannot read ends
    it with status 1 and the document of an [AttributeError], before any
    diagnostic is printed. *)
Theorem extract_nav_main_bad_source (args : ExtractNav.Args) (s : State) :
  startswith (u "http") (ExtractNav.image args) = false →
  (path_exists (world s) (ExtractNav.image args) = false →
   ExtractNav.main args s
   = (with_stderr
        [Val (ExtractNav.error_doc
                (FileNotFoundError (u "Source not found: " ++ ExtractNav.image args)));
         Lit [NL]] s, 1%Z))
  ∧ (path_exists (world s) (ExtractNav.image args) = true →
     cv2_imread (world s) (ExtractNav.image args) = None →
     ExtractNav.main args s
     = (with_stderr
          [Val (ExtractNav.error_doc
                  (AttributeError (u "'NoneType' object has no attribute 'shape'")));
           Lit [NL]] s, 1%Z)).
Proof.
  intros Hlocal. split.
  - intros Hmissing.
    unfold ExtractNav.main, ExtractNav.main_body, ExtractNav.get_image, mbind, M_bind.
    by rewrite Hlocal, Hmissing.
  - intros Hexists Hunreadable.
    unfold ExtractNav.main, ExtractNav.main_body, ExtractNav.get_image, mbind, M_bind.
    by rewrite Hlocal, Hexists, Hunreadable.
Qed.


End CliFacts.

(** * The whole run of [main.py] *)




Section RunFacts.
Context `{Env}.

Lemma bind_ok {A B : Type} (m : M A) (k : A → M B) (s s1 : State) (a : A) :
  m s = (s1, inr a) → (m ≫= k) s = k a s1.
Proof. unfold mbind, M_bind. by intros ->. Qed.

Lemma bind_raise {A B : Type} (m : M A) (k : A → M B) (s s1 : State) (e : exn) :
  m s = (s1, inl e) → (m ≫= k) s = (s1, inl e).
Proof. unfold mbind, M_bind. by intros ->. Qed.

(** What is printed before does not change what the directory fetch does. *)
Lemma fetch_open_end_funds_frame (pieces : list (Piece Confidence)) (s : State) :
  Main.fetch_open_end_funds (with_stdout pieces s)
  = (with_stdout pieces (Main.fetch_open_end_funds s).1,
     (Main.fetch_open_end_funds s).2).
Proof.
  unfold Main.fetch_open_end_funds, Main.requests_get, mbind, M_bind, send.
  change (world (with_stdout pieces s)) with (world s).
  destruct (http (world s) _) as [w [e|resp]]; [reflexivity|].
  unfold raise_for_status. destruct (_ && _); [reflexivity|].
  unfold resp_json. destruct (json_doc resp) as [doc|]; [|reflexivity].
  unfold mret, M_ret, lift. cbv beta iota.
  destruct (Py.get doc _ _) as [e|rows]; [reflexivity|].
  destruct (Py.iter rows) as [e|items]; [reflexivity|].
  by destruct (Main.funds_loop items []).
Qed.

Lemma fetch_open_end_funds_effects (s : State) :
  fs (Main.fetch_open_end_funds s).1 = fs s
  ∧ trace (Main.fetch_open_end_funds s).1 = trace s ++ [Sent directory_request].
Proof.
  unfold Main.fetch_open_end_funds, Main.requests_get, mbind, M_bind, send.
  fold directory_request.
  destruct (http (world s) _) as [w [e|resp]]; [done|].
  unfold raise_for_status. destruct (_ && _); [done|].
  unfold resp_json. destruct (json_doc resp) as [doc|]; [|done].
  unfold mret, M_ret, lift. cbv beta iota.
  destruct (Py.get doc _ _) as [e|rows]; [done|].
  destruct (Py.iter rows) as [e|items]; [done|].
  by destruct (Main.funds_loop items []).
Qed.

(** X16. When the directory cannot be fetched, [main] stops with that
    exception: the directory request is the only event of the run and
    the artifact store is left as it was. *)
Theorem main_aborts_without_directory (s : State) (e : exn) :
  (Main.fetch_open_end_funds s).2 = inl e →
  (Main.main s).2 = inl e
  ∧ fs (Main.main s).1 = fs s
  ∧ trace (Main.main s).1 = trace s ++ [Sent directory_request].
Proof.
  intros Hfetch. destruct (fetch_open_end_funds_effects s) as [Hfs Htrace].
  unfold Main.main.
  do 4 (erewrite bind_ok by reflexivity).
  erewrite bind_raise.
  2: { unfold print, print_end. cbv beta iota. rewrite !fetch_open_end_funds_frame.
       rewrite Hfetch. reflexivity. }
  split; [done|]. split; [exact Hfs|exact Htrace].
Qed.












End RunFacts.

(** * The further properties on the concrete worlds *)

Lemma fetch_open_end_funds_one_fund_per_row_witness :
  ∃ funds,
    (@Main.fetch_open_end_funds Scenario.E Scenario.s0).2 = inr funds
    ∧ length funds = 3%nat.
Proof.
  assert (status_ok (Scenario.ok_json Scenario.directory)) as Hok.
  { unfold status_ok. simpl. lia. }
  destruct (@fetch_open_end_funds_one_fund_per_row Scenario.E Scenario.s0 tt
              (Scenario.ok_json Scenario.directory)
              [(u "data", JArray [Scenario.directory_row (u "AAA") (u "Alpha Fund");
                                  Scenario.directory_row (u "BBB") (u "Beta Fund");
                                  Scenario.directory_row (u "CCC") (u "Gamma Fund")])]
              [Scenario.directory_row (u "AAA") (u "Alpha Fund");
               Scenario.directory_row (u "BBB") (u "Beta Fund");
               Scenario.directory_row (u "CCC") (u "Gamma Fund")]
              eq_refl Hok eq_refl eq_refl)
    as (funds & Hrun & Hlen & _).
  { repeat constructor;
      (eexists; split; [reflexivity|]; split; eexists; reflexivity). }
  by exists funds.
Defined.

Lemma fetch_open_end_funds_bad_row_witness :
  ∃ e, (@Main.fetch_open_end_funds Scenario.E_bad_row
          (Scenario.initial Scenario.E_bad_row tt)).2 = inl e
       ∧ ((∃ msg, e = AttributeError msg) ∨ (∃ msg, e = TypeError msg)).
Proof.
  assert (status_ok (Scenario.ok_json Scenario.directory_with_bad_row)) as Hok.
  { unfold status_ok. simpl. lia. }
  destruct (@fetch_open_end_funds_bad_row Scenario.E_bad_row
              (Scenario.initial Scenario.E_bad_row tt) tt
              (Scenario.ok_json Scenario.directory_with_bad_row)
              [(u "data", JArray [Scenario.directory_row (u "AAA") (u "Alpha Fund");
                                  JString (u "maintenance");
                                  Scenario.directory_row (u "CCC") (u "Gamma Fund")])]
              [Scenario.directory_row (u "AAA") (u "Alpha Fund")]
              [Scenario.directory_row (u "CCC") (u "Gamma Fund")]
              (JString (u "maintenance"))
              eq_refl Hok eq_refl eq_refl)
    as (e & Hrun & _ & Hkind & _).
  { repeat constructor;
      (eexists; split; [reflexivity|]; split; eexists; reflexivity). }
  { intros (fields & Heq & _). discriminate Heq. }
  by exists e.
Defined.


Lemma fetch_fund_announcements_well_formed_witness :
  Forall well_formed_announcement
         [Scenario.agm_announcement; Scenario.nav_announcement].
Proof.
  apply (@fetch_fund_announcements_well_formed Scenario.E (u "AAA") (u "Alpha Fund")
           Scenario.s0).
  vm_compute. reflexivity.
Defined.

Lemma image_extension_kept_witness :
  Main.extension_of Scenario.image_url ∈ accepted_extensions.
Proof.
  apply (image_extension_kept Scenario.image_url (u ".png")).
  - unfold accepted_extensions. right. right. left.
  - apply endswith_suffix. vm_compute. reflexivity.
Defined.


Lemma extract_nav_main_bad_source_witness :
  @ExtractNav.main Scenario.env_offline
    {| ExtractNav.image := u "nav.png"; ExtractNav.debug := false |}
    (Scenario.initial Scenario.env_offline tt)
  = (@with_stderr Scenario.env_offline
       [Val (@ExtractNav.error_doc Scenario.env_offline
               (FileNotFoundError (u "Source not found: " ++ u "nav.png")));
        Lit [NL]]
       (Scenario.initial Scenario.env_offline tt), 1%Z).
Proof.
  destruct (@extract_nav_main_bad_source Scenario.env_offline
              {| ExtractNav.image := u "nav.png"; ExtractNav.debug := false |}
              (Scenario.initial Scenario.env_offline tt) eq_refl)
    as [Hmissing _].
  apply Hmissing. reflexivity.
Defined.

Lemma main_aborts_without_directory_witness :
  (@Main.main Scenario.env_offline (Scenario.initial Scenario.env_offline tt)).2
  = inl (RequestException (u "network unreachable"))
  ∧ fs (@Main.main Scenario.env_offline (Scenario.initial Scenario.env_offline tt)).1
    = ∅
  ∧ trace (@Main.main Scenario.env_offline
             (Scenario.initial Scenario.env_offline tt)).1
    = [] ++ [Sent directory_request].
Proof.
  apply (@main_aborts_without_directory Scenario.env_offline
           (Scenario.initial Scenario.env_offline tt)).
  vm_compute. reflexivity.
Defined.


Lemma image_path_keyed_by_symbol_witness :
  @Main.image_path_of Scenario.E Scenario.image_url (u "AAA")
  = Scenario.image_path_AAA.
Proof.
  destruct (@image_path_keyed_by_symbol Scenario.E Scenario.image_url (u "AAA"))
    as [Hinside _].
  destruct Hinside as [Hpath _]; [not_in_literal|].
  rewrite Hpath. reflexivity.
Defined.

